(** * video-splitter: the timestamp parser, the clip namer, the split job
      and the table of downloadable clips of [server.py]

    The development embeds the Python functions [parse_timestamp],
    [parse_timestamp_ranges], [get_first_word], [allowed_file],
    [get_ffmpeg_command], [split_video], [download_clip] and
    [cleanup_temp_files] and proves properties of them.

    Modelling conventions.
    - A Python [str] is a [string]; every character stands for the code
      point of the same number, so the model covers texts whose code
      points are below 256.  The character classes used by [str.strip],
      [int] and [str.lower] are the ones CPython has on that range.
    - A Python [int] is a [Z].  The interpreter is taken with its limit on
      the digits of a conversion switched off
      ([sys.set_int_max_str_digits(0)]); under the default limit [int]
      and [str] raise ValueError beyond 4300 digits.
    - A raised exception is a value of [exn]; a function that may raise
      returns [exn + A].
    - [os.path] is [posixpath]. *)

From Stdlib Require Import ZArith Ascii.
From stdpp Require Import gmap strings list fin_maps.

Local Open Scope Z_scope.

(** ** Python built-ins used by the server *)

Module Py.

(** Exceptions, by class; the payload is [str(e)]. *)
Inductive exn : Type :=
  | ValueError (msg : string)
  | OSError (msg : string)
  | Exception (msg : string).

Definition str_exn (e : exn) : string :=
  match e with ValueError m | OSError m | Exception m => m end.


Definition ord (c : ascii) : Z := Z.of_N (N_of_ascii c).
Definition chr (n : Z) : ascii := ascii_of_N (Z.to_N n).

Definition between (lo hi : Z) (c : ascii) : bool :=
  (lo <=? ord c) && (ord c <=? hi).

(** [str.isspace] on one character: the set [str.strip()] removes. *)
Definition isspace (c : ascii) : bool :=
  between 9 13 c || between 28 32 c || (ord c =? 133) || (ord c =? 160).

(** The blanks [int] skips around a literal: C's [isspace] on ASCII, and
    the two non-ASCII blanks below 256. *)
Definition int_isspace (c : ascii) : bool :=
  between 9 13 c || (ord c =? 32) || (ord c =? 133) || (ord c =? 160).

Definition isdigit (c : ascii) : bool := between 48 57 c.

Definition eqb (a b : ascii) : bool := Ascii.eqb a b.

(** [len(s)] *)
Fixpoint len (s : string) : Z :=
  match s with
  | EmptyString => 0
  | String _ s' => 1 + len s'
  end.

(** [c in s] for a one-character [c]. *)
Fixpoint contains (c : ascii) (s : string) : bool :=
  match s with
  | EmptyString => false
  | String a s' => eqb a c || contains c s'
  end.

(** [all(P(c) for c in s)] *)
Fixpoint all_chars (P : ascii -> bool) (s : string) : bool :=
  match s with
  | EmptyString => true
  | String a s' => P a && all_chars P s'
  end.

(** [s.split(sep)] for a one-character separator: never empty, one more
    piece than there are separators. *)
Fixpoint split (sep : ascii) (s : string) : list string :=
  match s with
  | EmptyString => [EmptyString]
  | String a s' =>
      if eqb a sep then EmptyString :: split sep s'
      else match split sep s' with
           | h :: t => String a h :: t
           | [] => [String a EmptyString]
           end
  end.

(** [sep.join(l)] *)
Fixpoint join (sep : string) (l : list string) : string :=
  match l with
  | [] => EmptyString
  | [x] => x
  | x :: l' => x +:+ sep +:+ join sep l'
  end.

(** [s.replace(old, new)] for one-character [old] and [new]. *)
Fixpoint replace (old new : ascii) (s : string) : string :=
  match s with
  | EmptyString => EmptyString
  | String a s' => String (if eqb a old then new else a) (replace old new s')
  end.

Fixpoint lstrip (s : string) : string :=
  match s with
  | EmptyString => EmptyString
  | String a s' => if isspace a then lstrip s' else s
  end.

Fixpoint rstrip (s : string) : string :=
  match s with
  | EmptyString => EmptyString
  | String a s' =>
      match rstrip s' with
      | EmptyString => if isspace a then EmptyString else String a EmptyString
      | r => String a r
      end
  end.

(** [s.strip()] *)
Definition strip (s : string) : string := rstrip (lstrip s).

(** [s.lower()] *)
Definition lower_char (c : ascii) : ascii :=
  if between 65 90 c || (between 192 222 c && negb (ord c =? 215))
  then chr (ord c + 32) else c.

Fixpoint lower (s : string) : string :=
  match s with
  | EmptyString => EmptyString
  | String a s' => String (lower_char a) (lower s')
  end.

(** [s.rfind(c)]: the last index of [c], or -1. *)
Fixpoint rfind (c : ascii) (s : string) : Z :=
  match s with
  | EmptyString => -1
  | String a s' =>
      let r := rfind c s' in
      if 0 <=? r then 1 + r else if eqb a c then 0 else -1
  end.

(** Slices [s[:n]], [s[n:]] and the item [s[n:n+1]], for [0 <= n]. *)
Fixpoint take (n : nat) (s : string) : string :=
  match n, s with
  | S n', String a s' => String a (take n' s')
  | _, _ => EmptyString
  end.

Fixpoint drop (n : nat) (s : string) : string :=
  match n, s with
  | S n', String _ s' => drop n' s'
  | _, _ => s
  end.

Definition slice_to (n : Z) (s : string) : string := take (Z.to_nat n) s.
Definition slice_from (n : Z) (s : string) : string := drop (Z.to_nat n) s.
Definition item (n : Z) (s : string) : string := take 1 (slice_from n s).

(** [s.rsplit(c, 1)] *)
Definition rsplit1 (c : ascii) (s : string) : list string :=
  let k := rfind c s in
  if k <? 0 then [s] else [slice_to k s; slice_from (k + 1) s].

(** *** [str(n)] for an integer *)

Definition digit_char (d : Z) : ascii := chr (48 + d).

Fixpoint str_digits (fuel : nat) (n : Z) (acc : string) : string :=
  match fuel with
  | O => acc
  | S fuel' =>
      let acc' := String (digit_char (n mod 10)) acc in
      if n <? 10 then acc' else str_digits fuel' (n / 10) acc'
  end.

Definition str_nonneg (n : Z) : string :=
  str_digits (S (Z.to_nat (Z.log2 n))) n EmptyString.

Definition str (n : Z) : string :=
  if n <? 0 then String "-" (str_nonneg (- n)) else str_nonneg n.

(** *** [int(s)] for a string

    Blanks are skipped on both sides, one sign is allowed, then come
    decimal digits in which single underscores may separate digits. *)

Fixpoint int_lstrip (s : string) : string :=
  match s with
  | EmptyString => EmptyString
  | String a s' => if int_isspace a then int_lstrip s' else s
  end.

Fixpoint int_rstrip (s : string) : string :=
  match s with
  | EmptyString => EmptyString
  | String a s' =>
      match int_rstrip s' with
      | EmptyString => if int_isspace a then EmptyString else String a EmptyString
      | r => String a r
      end
  end.

(** The digits after the first one: [prev_us] tells that the character
    before was an underscore; [acc] is the value read so far. *)
Fixpoint int_digits (prev_us : bool) (acc : Z) (s : string) : option Z :=
  match s with
  | EmptyString => if prev_us then None else Some acc
  | String a s' =>
      if isdigit a then int_digits false (10 * acc + (ord a - 48)) s'
      else if eqb a "_" then
        if prev_us then None else int_digits true acc s'
      else None
  end.

Definition int_unsigned (s : string) : option Z :=
  match s with
  | EmptyString => None
  | String a s' => if isdigit a then int_digits false (ord a - 48) s' else None
  end.

Definition int_literal (s : string) : option Z :=
  match int_rstrip (int_lstrip s) with
  | String "+" s' => int_unsigned s'
  | String "-" s' => Z.opp <$> int_unsigned s'
  | s' => int_unsigned s'
  end.

(** The characters a text that [int] accepts is made of. *)
Definition int_char (c : ascii) : bool :=
  isdigit c || eqb c "_" || eqb c "+" || eqb c "-" || int_isspace c.

(** [repr(s)], which the message of a failed [int] quotes. *)
Definition hex_digit (d : Z) : ascii :=
  if d <? 10 then chr (48 + d) else chr (87 + d).

Definition repr_char (quote : ascii) (c : ascii) : string :=
  if eqb c quote || eqb c "\" then String "\" (String c EmptyString)
  else if ord c =? 9 then "\t"
  else if ord c =? 10 then "\n"
  else if ord c =? 13 then "\r"
  else if (ord c <? 32) || between 127 160 c || (ord c =? 173)
  then String "\" (String "x" (String (hex_digit (ord c / 16))
                                 (String (hex_digit (ord c mod 16)) EmptyString)))
  else String c EmptyString.

Fixpoint repr_body (quote : ascii) (s : string) : string :=
  match s with
  | EmptyString => EmptyString
  | String a s' => repr_char quote a +:+ repr_body quote s'
  end.

Definition repr (s : string) : string :=
  let quote : ascii :=
    if contains "'" s && negb (contains "034" s) then "034"%char else "'"%char in
  String quote (repr_body quote s) +:+ String quote EmptyString.

(** [b.hex()] for a bytes object, two digits per byte *)
Fixpoint hex (b : string) : string :=
  match b with
  | EmptyString => EmptyString
  | String a b' =>
      String (hex_digit (ord a / 16)) (String (hex_digit (ord a mod 16)) (hex b'))
  end.

Definition int (s : string) : exn + Z :=
  match int_literal s with
  | Some n => inr n
  | None =>
      inl (ValueError ("invalid literal for int() with base 10: "
                       +:+ take 200 (repr s)))
  end.

End Py.

Import Py.

(** ** Timestamps (server.py, lines 512-547) *)

(** One entry of the list [parse_timestamp_ranges] returns: the dict with
    keys ['start'], ['end'], ['start_str'] and ['end_str']. *)
Record range_info : Type := RangeInfo {
  start : Z;
  end_ : Z;
  start_str : string;
  end_str : string
}.

(** Sequencing of computations that may raise. *)
Definition bind_exn {A B : Type} (x : exn + A) (f : A -> exn + B) : exn + B :=
  match x with
  | inl e => inl e
  | inr a => f a
  end.

Notation "'try!' x ':=' e1 'in' e2" := (bind_exn e1 (fun x => e2))
  (at level 10, x name, e1 at level 100, e2 at level 200).

Definition parse_timestamp (timestamp : string) : exn + Z :=
  let parts := split ":" (strip timestamp) in
  match parts with
  | [p0; p1] =>
      try! m := int p0 in
      try! s := int p1 in
      inr (m * 60 + s)
  | [p0; p1; p2] =>
      try! h := int p0 in
      try! m := int p1 in
      try! s := int p2 in
      inr (h * 3600 + m * 60 + s)
  | _ => inl (ValueError ("Invalid timestamp format: " +:+ timestamp))
  end.

(** The body of the [for] loop of [parse_timestamp_ranges] for one
    candidate: [None] is the [continue] of a blank candidate. *)
Definition parse_range (range_str : string) : exn + option range_info :=
  let range_str := strip range_str in
  if decide (range_str = "") then inr None
  else
    let parts := split "-" range_str in
    match parts with
    | [p0; p1] =>
        try! start := parse_timestamp (strip p0) in
        try! end_ := parse_timestamp (strip p1) in
        if start >=? end_ then
          inl (ValueError
                 ("Invalid range: start time must be before end time in "
                  +:+ range_str))
        else inr (Some (RangeInfo start end_ (strip p0) (strip p1)))
    | _ => inl (ValueError ("Invalid range format: " +:+ range_str))
    end.

(** The loop, over the candidates still to read, with the list [ranges]
    built so far. *)
Fixpoint parse_ranges_loop (candidates : list string) (ranges : list range_info)
  : exn + list range_info :=
  match candidates with
  | [] => inr ranges
  | range_str :: rest =>
      try! r := parse_range range_str in
      match r with
      | None => parse_ranges_loop rest ranges
      | Some info => parse_ranges_loop rest (ranges ++ [info])
      end
  end.

Definition parse_timestamp_ranges (timestamps_text : string)
  : exn + list range_info :=
  parse_ranges_loop (split "," timestamps_text) [].

(** ** File names (server.py, lines 508-510 and 549-564) *)

(** The loop of [posixpath.splitext] that skips the leading dots of the
    last path component; [n] bounds the iterations left. *)
Fixpoint splitext_scan (p : string) (dotIndex : Z) (n : nat) (filenameIndex : Z)
  : string * string :=
  match n with
  | O => (p, "")
  | S n' =>
      if decide (item filenameIndex p = ".")
      then splitext_scan p dotIndex n' (filenameIndex + 1)
      else (slice_to dotIndex p, slice_from dotIndex p)
  end.

(** [os.path.splitext] *)
Definition splitext (p : string) : string * string :=
  let sepIndex := rfind "/" p in
  let dotIndex := rfind "." p in
  if dotIndex >? sepIndex
  then splitext_scan p dotIndex (Z.to_nat (dotIndex - (sepIndex + 1))) (sepIndex + 1)
  else (p, "").

(** [l[0]] of a list that [split] returned. *)
Definition first (l : list string) : string := hd "" l.

(** The [for delimiter in ['_', '-', '.']] loop of [get_first_word], with
    what follows it. *)
Fixpoint first_word_delims (delims : list ascii) (name_without_ext : string) : string :=
  match delims with
  | [] => if decide (name_without_ext = "") then "clip" else name_without_ext
  | delimiter :: rest =>
      if contains delimiter name_without_ext
      then first (split delimiter name_without_ext)
      else first_word_delims rest name_without_ext
  end.

Definition get_first_word (filename : string) : string :=
  let name_without_ext := fst (splitext filename) in
  if contains " " name_without_ext
  then first (split " " name_without_ext)
  else first_word_delims ["_"; "-"; "."]%char name_without_ext.

Definition ALLOWED_EXTENSIONS : list string :=
  ["mp4"; "avi"; "mov"; "mkv"; "webm"; "flv"; "wmv"; "mpg"; "mpeg"; "m4v"].

Definition allowed_file (filename : string) : bool :=
  contains "." filename &&
  match rsplit1 "." filename with
  | [_; ext] => bool_decide (lower ext ∈ ALLOWED_EXTENSIONS)
  | _ => false
  end.

(** ** The host: file system, processes, randomness

    What the server calls and does not define.  The file system is a
    finite map from path texts to nodes; paths are compared as texts.
    Writing and deleting always succeed ([shutil.rmtree] is called with
    [ignore_errors=True]); creating a directory fails only below a
    regular file. *)

Inductive node : Type :=
  | Dir
  | File (content : string).

#[global] Instance node_eq_dec : EqDecision node.
Proof. solve_decision. Defined.

Record CompletedProcess : Type := {
  returncode : Z;
  stderr : string
}.

(** A record of [temp_clips]: the dict with keys ['path'], ['filename']
    and ['temp_dir']. *)
Record clip_info : Type := ClipInfo {
  path : string;
  info_filename : string;
  temp_dir : string
}.

Record World : Type := {
  fs : gmap string node;
  temp_clips : gmap string clip_info;   (* the module-level dict *)
  processes : list (list string);       (* commands given to subprocess.run, oldest first *)
  urandom_draws : nat;                  (* calls of os.urandom so far *)
  mkdtemp_draws : nat                   (* names tempfile has drawn so far *)
}.

Record Host : Type := {
  platform_system : string;             (* platform.system() *)
  script_ffmpeg : string;               (* ffmpeg.exe next to the script *)
  expanduser : string -> string;        (* os.path.expanduser *)
  secure_filename : string -> string;   (* werkzeug.utils.secure_filename *)
  extensions_iter : list string;        (* iteration order of ALLOWED_EXTENSIONS *)
  TMP_MAX : nat;                        (* tempfile.TMP_MAX *)
  mkdtemp_candidate : nat -> string;    (* the n-th path tempfile draws *)
  urandom : nat -> string;              (* the n-th os.urandom(8) *)
  (* subprocess.run(cmd, capture_output=True, ...): from the commands
     run before, the file system and the command, either the exception
     raised or the completed process and the file system it leaves *)
  run_process : list (list string) -> gmap string node -> list string ->
                exn + (CompletedProcess * gmap string node)
}.

(** *** Paths *)

(** [os.path.join(a, b)] *)
Definition path_join (a b : string) : string :=
  if String.prefix "/" b then b
  else if decide (a = "") then b
  else if decide (item (len a - 1) a = "/") then a +:+ b
  else a +:+ "/" +:+ b.

(** [p] is [d] or lies below it. *)
Definition inside (d p : string) : bool :=
  bool_decide (p = d) || String.prefix (d +:+ "/") p.

(** The proper ancestors of a path, outermost first: its non-empty
    prefixes that end before a separator. *)
Fixpoint ancestors_from (pre rest : string) : list string :=
  match rest with
  | EmptyString => []
  | String a rest' =>
      (if eqb a "/" && negb (bool_decide (pre = "")) then [pre] else [])
      ++ ancestors_from (pre +:+ String a EmptyString) rest'
  end.

Definition ancestors (p : string) : list string := ancestors_from "" p.

Definition is_file (f : gmap string node) (p : string) : bool :=
  match f !! p with Some (File _) => true | _ => false end.

(** The first component that cannot be made: the one after a regular
    file on the way down to [p]. *)
Fixpoint blocked (f : gmap string node) (chain : list string) : option string :=
  match chain with
  | a :: ((b :: _) as chain') => if is_file f a then Some b else blocked f chain'
  | _ => None
  end.

Definition add_dir (f : gmap string node) (p : string) : gmap string node :=
  match f !! p with Some _ => f | None => <[p := Dir]> f end.

Definition makedirs_fs (f : gmap string node) (p : string) : gmap string node :=
  foldl add_dir f (ancestors p ++ [p]).

Definition rmtree_fs (f : gmap string node) (d : string) : gmap string node :=
  filter (fun kv => negb (inside d kv.1) = true) f.

(** *** State and exceptions *)

Definition M (A : Type) : Type := World -> (exn + A) * World.

Definition ret {A : Type} (a : A) : M A := fun w => (inr a, w).
Definition raise {A : Type} (e : exn) : M A := fun w => (inl e, w).

Definition bind {A B : Type} (c : M A) (k : A -> M B) : M B :=
  fun w => match c w with
           | (inr a, w') => k a w'
           | (inl e, w') => (inl e, w')
           end.

(** [try: c  except Exception as e: h e] *)
Definition try_except {A : Type} (c : M A) (h : exn -> M A) : M A :=
  fun w => match c w with
           | (inr a, w') => (inr a, w')
           | (inl e, w') => h e w'
           end.

Notation "'do!' x ':=' c 'in' k" := (bind c (fun x => k))
  (at level 10, x name, c at level 100, k at level 200).
Notation "'run!' c 'in' k" := (bind c (fun _ => k))
  (at level 10, c at level 100, k at level 200).

Definition set_fs (f : gmap string node) (w : World) : World :=
  {| fs := f; temp_clips := temp_clips w; processes := processes w;
     urandom_draws := urandom_draws w; mkdtemp_draws := mkdtemp_draws w |}.

Definition set_temp_clips (t : gmap string clip_info) (w : World) : World :=
  {| fs := fs w; temp_clips := t; processes := processes w;
     urandom_draws := urandom_draws w; mkdtemp_draws := mkdtemp_draws w |}.

Definition set_processes (l : list (list string)) (w : World) : World :=
  {| fs := fs w; temp_clips := temp_clips w; processes := l;
     urandom_draws := urandom_draws w; mkdtemp_draws := mkdtemp_draws w |}.

Definition set_urandom_draws (n : nat) (w : World) : World :=
  {| fs := fs w; temp_clips := temp_clips w; processes := processes w;
     urandom_draws := n; mkdtemp_draws := mkdtemp_draws w |}.

Definition set_mkdtemp_draws (n : nat) (w : World) : World :=
  {| fs := fs w; temp_clips := temp_clips w; processes := processes w;
     urandom_draws := urandom_draws w; mkdtemp_draws := n |}.

(** [os.path.exists], [os.path.isdir] *)
Definition exists_ (p : string) (w : World) : bool := bool_decide (is_Some (fs w !! p)).
Definition isdir (p : string) (w : World) : bool := bool_decide (fs w !! p = Some Dir).

(** [os.makedirs(p, exist_ok=True)], called on a path that does not exist *)
Definition makedirs (p : string) : M unit := fun w =>
  match blocked (fs w) (ancestors p ++ [p]) with
  | Some b => (inl (OSError ("[Errno 20] Not a directory: " +:+ repr b)), w)
  | None => (inr tt, set_fs (makedirs_fs (fs w) p) w)
  end.

(** [shutil.rmtree(d, ignore_errors=True)] *)
Definition rmtree (d : string) : M unit := fun w =>
  (inr tt, set_fs (rmtree_fs (fs w) d) w).

(** [file.save(dst)] *)
Definition save (content dst : string) : M unit := fun w =>
  (inr tt, set_fs (<[dst := File content]> (fs w)) w).

(** ** The requests and the answers *)

(** [request.files['video']] *)
Record FileStorage : Type := {
  filename : string;
  stream : string
}.

Record Request : Type := {
  files_video : option FileStorage;     (* None: 'video' not in request.files *)
  form_timestamps : option string;      (* request.form: 'timestamps' *)
  form_outputPath : option string       (* request.form: 'outputPath' *)
}.

(** An entry of ['clips']: ['id'] is absent when the clip went to the
    requested directory. *)
Record clip : Type := Clip {
  id : option string;
  clip_filename : string
}.

Inductive response : Type :=
  | ErrorJson (error : string) (status : Z)
  | SuccessJson (clips : list clip) (saved_to_path : option string)
  | FileResponse (body : string) (download_name : string) (mimetype : string).

(** What [split_video] has in hand when it reaches its loop. *)
Record job : Type := {
  ffmpeg_cmd : string;
  input_path : string;
  output_path : string;
  save_to_path : bool;
  job_temp_dir : string;
  first_word : string
}.

(** ** The server (server.py, lines 480-506 and 599-776) *)

Section Server.

Context (host : Host).

(** [subprocess.run(cmd, capture_output=True, ...)] *)
Definition subprocess_run (cmd : list string) : M CompletedProcess := fun w =>
  let w1 := set_processes (processes w ++ [cmd]) w in
  match run_process host (processes w) (fs w) cmd with
  | inl e => (inl e, w1)
  | inr (result, f) => (inr result, set_fs f w1)
  end.

(** [tempfile.mkdtemp()]: draw names until one is free. *)
Fixpoint mkdtemp_loop (tries : nat) : M string := fun w =>
  match tries with
  | O => (inl (OSError "[Errno 17] No usable temporary directory name found"), w)
  | S tries' =>
      let name := mkdtemp_candidate host (mkdtemp_draws w) in
      let w1 := set_mkdtemp_draws (S (mkdtemp_draws w)) w in
      if exists_ name w then mkdtemp_loop tries' w1
      else (inr name, set_fs (<[name := Dir]> (fs w1)) w1)
  end.

Definition mkdtemp : M string := mkdtemp_loop (TMP_MAX host).

(** [os.urandom(8).hex()] *)
Definition urandom_hex : M string := fun w =>
  (inr (hex (urandom host (urandom_draws w))),
   set_urandom_draws (S (urandom_draws w)) w).

Definition possible_paths : list string :=
  ["ffmpeg.exe"; "C:\ffmpeg\bin\ffmpeg.exe";
   "C:\Program Files\ffmpeg\bin\ffmpeg.exe"; script_ffmpeg host].

(** The [for path in possible_paths] loop of [get_ffmpeg_command]. *)
Fixpoint probe_paths (paths : list string) : M string :=
  match paths with
  | [] => ret "ffmpeg.exe"
  | path :: rest => fun w =>
      if exists_ path w then (inr path, w)
      else
        match subprocess_run [path; "-version"] w with
        | (inr result, w') =>
            if returncode result =? 0 then (inr path, w') else probe_paths rest w'
        | (inl _, w') => probe_paths rest w'
        end
  end.

Definition get_ffmpeg_command : M string :=
  if decide (platform_system host = "Windows")
  then probe_paths possible_paths
  else ret "ffmpeg".

(** Lines 626-638: the answer to give at once, or the directory and
    [save_to_path]. *)
Definition resolve_output_path (output_path : string)
  : M (response + string * bool) :=
  if decide (output_path = "") then ret (inr (output_path, false))
  else
    let output_path := expanduser host output_path in
    fun w =>
      if negb (exists_ output_path w) then
        match makedirs output_path w with
        | (inr _, w') => (inr (inr (output_path, true)), w')
        | (inl e, w') =>
            (inr (inl (ErrorJson ("Cannot create output directory: " +:+ str_exn e)
                         400)), w')
        end
      else if negb (isdir output_path w) then
        (inr (inl (ErrorJson "Output path must be a directory" 400)), w)
      else (inr (inr (output_path, true)), w).

(** Lines 603-659: everything before the loop. *)
Definition prepare (req : Request) : M (response + job * list range_info) :=
  do! ffmpeg_cmd := get_ffmpeg_command in
  match files_video req with
  | None => ret (inl (ErrorJson "No video file provided" 400))
  | Some file =>
      if decide (filename file = "") then
        ret (inl (ErrorJson "No file selected" 400))
      else if negb (allowed_file (filename file)) then
        ret (inl (ErrorJson ("Invalid file type. Allowed types: "
                             +:+ join ", " (extensions_iter host)) 400))
      else
        let timestamps := default "" (form_timestamps req) in
        if decide (timestamps = "") then
          ret (inl (ErrorJson "No timestamps provided" 400))
        else
          do! o := resolve_output_path (strip (default "" (form_outputPath req))) in
          match o with
          | inl resp => ret (inl resp)
          | inr (output_path, save_to_path) =>
              match parse_timestamp_ranges timestamps with
              | inl (ValueError msg) => ret (inl (ErrorJson msg 400))
              | inl e => raise e
              | inr ranges =>
                  let original_filename := filename file in
                  let safe_filename := secure_filename host (filename file) in
                  let safe_filename :=
                    if bool_decide (safe_filename = "")
                       || bool_decide (safe_filename = ".mp4")
                    then "temp_video.mp4" else safe_filename in
                  do! temp_dir := mkdtemp in
                  let input_path := path_join temp_dir safe_filename in
                  run! save (stream file) input_path in
                  ret (inr ({| ffmpeg_cmd := ffmpeg_cmd;
                               input_path := input_path;
                               output_path := output_path;
                               save_to_path := save_to_path;
                               job_temp_dir := temp_dir;
                               first_word := get_first_word original_filename |},
                            ranges))
              end
          end
  end.

(** Line 664 *)
Definition output_filename (first_word : string) (i : nat) (r : range_info) : string :=
  first_word +:+ "-" +:+ str (Z.of_nat i) +:+ "-["
  +:+ replace ":" "_" (start_str r) +:+ " - "
  +:+ replace ":" "_" (end_str r) +:+ "].mp4".

(** Lines 667-672 *)
Definition clip_output_path (j : job) (output_filename : string) : string :=
  if save_to_path j then path_join (output_path j) output_filename
  else path_join (job_temp_dir j) output_filename.

(** Lines 678-687 *)
Definition copy_cmd (j : job) (r : range_info) (clip_output_path : string)
  : list string :=
  [ffmpeg_cmd j; "-i"; input_path j; "-ss"; str (start r);
   "-t"; str (end_ r - start r); "-c"; "copy";
   "-avoid_negative_ts"; "make_zero"; "-y"; clip_output_path].

(** Lines 696-705 *)
Definition reencode_cmd (j : job) (r : range_info) (clip_output_path : string)
  : list string :=
  [ffmpeg_cmd j; "-i"; input_path j; "-ss"; str (start r);
   "-t"; str (end_ r - start r); "-c:v"; "libx264"; "-c:a"; "aac";
   "-y"; clip_output_path].

(** Lines 691-709 *)
Definition cut (j : job) (r : range_info) (clip_output_path : string) : M unit :=
  do! result := subprocess_run (copy_cmd j r clip_output_path) in
  if negb (returncode result =? 0) then
    do! result := subprocess_run (reencode_cmd j r clip_output_path) in
    if negb (returncode result =? 0) then
      raise (Exception ("FFmpeg failed: " +:+ stderr result))
    else ret tt
  else ret tt.

(** [temp_clips[clip_id] = info] *)
Definition store_clip (clip_id : string) (info : clip_info) : M unit := fun w =>
  (inr tt, set_temp_clips (<[clip_id := info]> (temp_clips w)) w).

(** The body of the loop, lines 663-727, for the range numbered [i]. *)
Definition process_range (j : job) (i : nat) (r : range_info) : M clip :=
  let output_filename := output_filename (first_word j) i r in
  let clip_output_path := clip_output_path j output_filename in
  run! cut j r clip_output_path in
  if negb (save_to_path j) then
    do! h := urandom_hex in
    let clip_id := "clip_" +:+ str (Z.of_nat i) +:+ "_" +:+ h in
    run! store_clip clip_id
           (ClipInfo clip_output_path output_filename (job_temp_dir j)) in
    ret (Clip (Some clip_id) output_filename)
  else ret (Clip None output_filename).

(** [for i, range_info in enumerate(ranges, 1)], from number [i] on, with
    the [clips_info] collected so far. *)
Fixpoint process_ranges (j : job) (i : nat) (ranges : list range_info)
    (clips_info : list clip) : M (list clip) :=
  match ranges with
  | [] => ret clips_info
  | r :: rest =>
      do! c := process_range j i r in
      process_ranges j (S i) rest (clips_info ++ [c])
  end.

(** Lines 661-746: the inner [try] with its handler. *)
Definition run_job (j : job) (ranges : list range_info) : M response :=
  try_except
    (do! clips_info := process_ranges j 1 ranges [] in
     if save_to_path j then
       run! rmtree (job_temp_dir j) in
       ret (SuccessJson clips_info (Some (output_path j)))
     else ret (SuccessJson clips_info None))
    (fun e => run! rmtree (job_temp_dir j) in raise e).

(** The route [/split]; the outer handler turns what was raised into the
    answer with status 500. *)
Definition split_video (req : Request) (w : World) : response * World :=
  match (do! p := prepare req in
         match p with
         | inl resp => ret resp
         | inr (j, ranges) => run_job j ranges
         end) w with
  | (inr resp, w') => (resp, w')
  | (inl e, w') => (ErrorJson (str_exn e) 500, w')
  end.





End Server.

(** ** A host to run the server on

    A POSIX machine whose cutter exits with the scripted codes, one per
    invocation ([0] once the script is used up), writes the clip when it
    exits with [0] and prints [stderr_text] otherwise.  The other fields
    are sample values: temporary directories are numbered, the random
    bytes are fixed, and [secure_filename] only replaces spaces. *)

Definition scripted_run (codes : list Z) (stderr_text : string)
    (before : list (list string)) (f : gmap string node) (cmd : list string)
  : exn + (CompletedProcess * gmap string node) :=
  let code := nth (length before) codes 0 in
  if code =? 0
  then inr ({| returncode := 0; stderr := "" |},
            <[List.last cmd "" := File "clip"]> f)
  else inr ({| returncode := code; stderr := stderr_text |}, f).

Definition scripted_host (codes : list Z) (stderr_text : string) : Host := {|
  platform_system := "Linux";
  script_ffmpeg := "/srv/ffmpeg.exe";
  expanduser := fun p => p;
  secure_filename := fun name => replace " " "_" name;
  extensions_iter := ALLOWED_EXTENSIONS;
  TMP_MAX := Z.to_nat 10000;
  mkdtemp_candidate := fun n => "/tmp/tmp" +:+ str (Z.of_nat n);
  urandom := fun n => String (chr (Z.of_nat n)) "1234567";
  run_process := scripted_run codes stderr_text
|}.

Definition empty_world : World := {|
  fs := {["/tmp" := Dir]};
  temp_clips := ∅;
  processes := [];
  urandom_draws := 0;
  mkdtemp_draws := 0
|}.

Definition upload (name timestamps : string) (outputPath : option string) : Request := {|
  files_video := Some {| filename := name; stream := "video" |};
  form_timestamps := Some timestamps;
  form_outputPath := outputPath
|}.

(** Sample requests: three ranges, with and without a requested
    directory, and a text that does not parse. *)
Definition three_ranges : string := "1:00-2:30, 3:00 - 4:00, 5:00-6:00".

Definition to_scratch : Request := upload "Show.mp4" three_ranges None.
Definition to_directory : Request := upload "Show.mp4" three_ranges (Some "/out/clips").
Definition malformed : Request := upload "Show.mp4" "bad" (Some "/out/clips").

(** The cutter succeeds every time; the copy fails for the first two
    ranges and the re-encoding for the second as well. *)
Definition good_host : Host := scripted_host [] "".
Definition failing_host : Host := scripted_host [1; 0; 1; 1] "boom".

(** The job [to_scratch] becomes, and its ranges. *)
Definition scratch_job : job := {|
  ffmpeg_cmd := "ffmpeg";
  input_path := "/tmp/tmp0/Show.mp4";
  output_path := "";
  save_to_path := false;
  job_temp_dir := "/tmp/tmp0";
  first_word := "Show"
|}.

Definition range1 : range_info := RangeInfo 60 150 "1:00" "2:30".
Definition range2 : range_info := RangeInfo 180 240 "3:00" "4:00".
Definition range3 : range_info := RangeInfo 300 360 "5:00" "6:00".

(** A host on which the cutter cannot be started, a Windows machine
    whose first probe fails and whose second answers, and a request whose
    timestamps hold blanks and commas only. *)
Definition missing_host : Host := {|
  platform_system := "Linux";
  script_ffmpeg := "/srv/ffmpeg.exe";
  expanduser := fun p => p;
  secure_filename := fun name => replace " " "_" name;
  extensions_iter := ALLOWED_EXTENSIONS;
  TMP_MAX := Z.to_nat 10000;
  mkdtemp_candidate := fun n => "/tmp/tmp" +:+ str (Z.of_nat n);
  urandom := fun n => String (chr (Z.of_nat n)) "1234567";
  run_process := fun _ _ _ =>
    inl (OSError "[Errno 2] No such file or directory: 'ffmpeg'")
|}.

Definition windows_host : Host := {|
  platform_system := "Windows";
  script_ffmpeg := "C:\srv\ffmpeg.exe";
  expanduser := fun p => p;
  secure_filename := fun name => replace " " "_" name;
  extensions_iter := ALLOWED_EXTENSIONS;
  TMP_MAX := Z.to_nat 10000;
  mkdtemp_candidate := fun n => "C:\tmp\tmp" +:+ str (Z.of_nat n);
  urandom := fun n => String (chr (Z.of_nat n)) "1234567";
  run_process := fun before f _ =>
    inr ({| returncode := nth (length before) [1; 0] 0; stderr := "" |}, f)
|}.

Definition blank_request : Request := upload "Show.mp4" " , ," None.

(** An upload whose name is an absolute path, on a host whose
    [secure_filename] also replaces slashes. *)
Definition absolute_name : Request :=
  upload "/srv/x.mp4" three_ranges (Some "/out/clips").

Definition strict_host : Host := {|
  platform_system := "Linux";
  script_ffmpeg := "/srv/ffmpeg.exe";
  expanduser := fun p => p;
  secure_filename := fun name => replace "/" "_" (replace " " "_" name);
  extensions_iter := ALLOWED_EXTENSIONS;
  TMP_MAX := Z.to_nat 10000;
  mkdtemp_candidate := fun n => "/tmp/tmp" +:+ str (Z.of_nat n);
  urandom := fun n => String (chr (Z.of_nat n)) "1234567";
  run_process := scripted_run [] ""
|}.

(** ** Notions the statements use *)

(** What a step leaves alone: the table and the draws of [os.urandom]. *)
Definition keeps_table (w w' : World) : Prop :=
  temp_clips w' = temp_clips w /\ urandom_draws w' = urandom_draws w.

(** Nothing is left of directory [d]. *)
Definition gone (d : string) (w : World) : Prop :=
  forall p, inside d p = true -> fs w !! p = None.

(** The record of a clip that job [j] registered. *)
Definition registered_by (j : job) (w : World) (c : clip) : Prop :=
  exists clip_id info,
    id c = Some clip_id /\ temp_clips w !! clip_id = Some info /\
    temp_dir info = job_temp_dir j /\
    path info = path_join (job_temp_dir j) (info_filename info).

(** The [-version] probes of [get_ffmpeg_command]. *)
Definition is_probe (cmd : list string) : Prop :=
  exists path, cmd = [path; "-version"].

(** The characters a label of a parsed range is made of: those of a text
    [int] accepts, without the minus sign, and the colon. *)
Definition label_char (c : ascii) : bool :=
  (int_char c || eqb c ":") && negb (eqb c "-").

(** ** Facts about the string built-ins *)

Module PyFacts.

Lemma str_app_nil_l (t : string) : "" +:+ t = t.
Proof. reflexivity. Qed.

Lemma str_app_cons (a : ascii) (s t : string) : String a s +:+ t = String a (s +:+ t).
Proof. reflexivity. Qed.

Lemma str_app_nil_r (s : string) : s +:+ "" = s.
Proof. induction s as [|a s IH]; [reflexivity|]. rewrite str_app_cons, IH. reflexivity. Qed.

Lemma str_app_assoc (s t u : string) : (s +:+ t) +:+ u = s +:+ (t +:+ u).
Proof.
  induction s as [|a s IH]; [reflexivity|].
  rewrite !str_app_cons, IH. reflexivity.
Qed.

Lemma eqb_eq (a b : ascii) : eqb a b = true <-> a = b.
Proof. apply Ascii.eqb_eq. Qed.

Lemma eqb_refl (a : ascii) : eqb a a = true.
Proof. apply Ascii.eqb_refl. Qed.

Lemma contains_app (c : ascii) (s t : string) :
  contains c (s +:+ t) = contains c s || contains c t.
Proof.
  induction s as [|a s IH]; [reflexivity|].
  rewrite str_app_cons. simpl. rewrite IH. apply orb_assoc.
Qed.

(** [split] never returns the empty list. *)
Lemma split_not_nil (sep : ascii) (s : string) : split sep s <> [].
Proof.
  induction s as [|a s IH]; simpl; [discriminate|].
  destruct (eqb a sep); [discriminate|].
  destruct (split sep s); [congruence|discriminate].
Qed.

Lemma split_cons_other (sep a : ascii) (s : string) :
  eqb a sep = false ->
  split sep (String a s) = String a (hd "" (split sep s)) :: tl (split sep s).
Proof.
  intros E. simpl. rewrite E.
  pose proof (split_not_nil sep s) as N.
  destruct (split sep s); [congruence|reflexivity].
Qed.

(** A text without the separator is one piece. *)
Lemma split_none (sep : ascii) (s : string) :
  contains sep s = false -> split sep s = [s].
Proof.
  induction s as [|a s IH]; [reflexivity|].
  simpl. intros H. apply orb_false_iff in H as [E C].
  rewrite E, (IH C). reflexivity.
Qed.

(** Splitting around one separator: the pieces of the left part, then
    the pieces of the right part. *)
Lemma split_app (sep : ascii) (s t : string) :
  split sep (s +:+ String sep t) = split sep s ++ split sep t.
Proof.
  induction s as [|a s IH].
  - rewrite str_app_nil_l. simpl. rewrite eqb_refl. reflexivity.
  - rewrite str_app_cons. simpl. rewrite IH.
    destruct (eqb a sep); [reflexivity|].
    pose proof (split_not_nil sep s) as N.
    destruct (split sep s); [congruence|reflexivity].
Qed.

(** *** [strip] *)

Lemma rstrip_cons (a : ascii) (s : string) :
  rstrip (String a s) =
  if isspace a && bool_decide (rstrip s = "") then "" else String a (rstrip s).
Proof.
  simpl. destruct (rstrip s) as [|b r].
  - rewrite bool_decide_eq_true_2 by reflexivity.
    destruct (isspace a); reflexivity.
  - rewrite bool_decide_eq_false_2 by discriminate.
    rewrite andb_false_r. reflexivity.
Qed.

Lemma rstrip_cons_nonspace (a : ascii) (s : string) :
  isspace a = false -> rstrip (String a s) = String a (rstrip s).
Proof. intros H. rewrite rstrip_cons, H. reflexivity. Qed.

Lemma lstrip_cons (a : ascii) (s : string) :
  lstrip (String a s) = if isspace a then lstrip s else String a s.
Proof. reflexivity. Qed.

Lemma lstrip_rstrip (s : string) : lstrip (rstrip s) = rstrip (lstrip s).
Proof.
  induction s as [|a s IH]; [reflexivity|].
  rewrite rstrip_cons, (lstrip_cons a s).
  destruct (isspace a) eqn:Ea; cbv beta iota delta [andb].
  - case_bool_decide as Er.
    + rewrite <- IH, Er. reflexivity.
    + rewrite lstrip_cons, Ea. exact IH.
  - rewrite lstrip_cons, Ea, rstrip_cons, Ea. reflexivity.
Qed.

Lemma lstrip_idemp (s : string) : lstrip (lstrip s) = lstrip s.
Proof.
  induction s as [|a s IH]; [reflexivity|].
  simpl. destruct (isspace a) eqn:Ea; [exact IH|].
  simpl. rewrite Ea. reflexivity.
Qed.

Lemma rstrip_idemp (s : string) : rstrip (rstrip s) = rstrip s.
Proof.
  induction s as [|a s IH]; [reflexivity|].
  rewrite rstrip_cons.
  destruct (isspace a) eqn:Ea; cbv beta iota delta [andb].
  - case_bool_decide as Er; [reflexivity|].
    rewrite rstrip_cons, Ea, IH. simpl.
    rewrite bool_decide_eq_false_2 by exact Er. reflexivity.
  - rewrite rstrip_cons, Ea, IH. reflexivity.
Qed.

Lemma strip_idemp (s : string) : strip (strip s) = strip s.
Proof.
  unfold strip. rewrite lstrip_rstrip, lstrip_idemp, rstrip_idemp. reflexivity.
Qed.

Lemma strip_lstrip (s : string) : strip (lstrip s) = strip s.
Proof. unfold strip. rewrite lstrip_idemp. reflexivity. Qed.

Lemma strip_rstrip (s : string) : strip (rstrip s) = strip s.
Proof. unfold strip. rewrite lstrip_rstrip, rstrip_idemp. reflexivity. Qed.

(** Stripping stops at a character that is not a blank. *)
Lemma lstrip_app (s t : string) (c : ascii) :
  isspace c = false -> lstrip (s +:+ String c t) = lstrip s +:+ String c t.
Proof.
  intros Hc. induction s as [|a s IH].
  - rewrite str_app_nil_l. simpl. rewrite Hc. reflexivity.
  - rewrite str_app_cons. simpl. destruct (isspace a); [exact IH|reflexivity].
Qed.

Lemma rstrip_app (s t : string) (c : ascii) :
  isspace c = false -> rstrip (s +:+ String c t) = s +:+ String c (rstrip t).
Proof.
  intros Hc. induction s as [|a s IH].
  - rewrite !str_app_nil_l. apply rstrip_cons_nonspace, Hc.
  - rewrite !str_app_cons, rstrip_cons, IH.
    replace (bool_decide (s +:+ String c (rstrip t) = "")) with false.
    + rewrite andb_false_r. reflexivity.
    + symmetry. apply bool_decide_eq_false_2.
      destruct s; discriminate.
Qed.

Lemma strip_app (s t : string) (c : ascii) :
  isspace c = false ->
  strip (s +:+ String c t) = lstrip s +:+ String c (rstrip t).
Proof.
  intros Hc. unfold strip. rewrite lstrip_app by exact Hc.
  apply rstrip_app, Hc.
Qed.

Lemma contains_lstrip (c : ascii) (s : string) :
  contains c s = false -> contains c (lstrip s) = false.
Proof.
  induction s as [|a s IH]; [reflexivity|].
  simpl. intros H. apply orb_false_iff in H as [E C].
  destruct (isspace a); [exact (IH C)|]. simpl. rewrite E, C. reflexivity.
Qed.

Lemma contains_rstrip (c : ascii) (s : string) :
  contains c s = false -> contains c (rstrip s) = false.
Proof.
  induction s as [|a s IH]; [reflexivity|].
  intros H. simpl in H. apply orb_false_iff in H as [E C].
  rewrite rstrip_cons. destruct (_ && _); [reflexivity|].
  simpl. rewrite E, (IH C). reflexivity.
Qed.

Lemma all_chars_app (P : ascii -> bool) (s t : string) :
  all_chars P (s +:+ t) = all_chars P s && all_chars P t.
Proof.
  induction s as [|a s IH]; [reflexivity|].
  rewrite str_app_cons. simpl. rewrite IH. apply andb_assoc.
Qed.

(** A text of blanks strips to nothing. *)
Lemma strip_blank (s : string) : all_chars isspace s = true -> strip s = "".
Proof.
  unfold strip. induction s as [|a s IH]; [reflexivity|].
  simpl. intros H. apply andb_true_iff in H as [Ha Hs].
  rewrite Ha. exact (IH Hs).
Qed.

End PyFacts.

(** ** Facts about the timestamp parser *)

Module ParserFacts.
Import PyFacts.


Lemma int_inr (s : string) (n : Z) : int s = inr n <-> int_literal s = Some n.
Proof.
  unfold int. destruct (int_literal s); split; intros H; congruence.
Qed.

Lemma int_digits_chars (s : string) :
  forall u acc n, int_digits u acc s = Some n -> all_chars int_char s = true.
Proof.
  induction s as [|a s IH]; [reflexivity|].
  intros u acc n. cbn [int_digits all_chars]. unfold int_char at 1.
  destruct (isdigit a); [apply IH|].
  destruct (eqb a "_"); [|discriminate].
  destruct u; [discriminate|apply IH].
Qed.

Lemma int_unsigned_chars (s : string) (n : Z) :
  int_unsigned s = Some n -> all_chars int_char s = true.
Proof.
  destruct s as [|a s]; [discriminate|].
  cbn [int_unsigned all_chars]. unfold int_char at 1.
  destruct (isdigit a); [|discriminate]. apply int_digits_chars.
Qed.

Lemma int_isspace_char (a : ascii) : int_isspace a = true -> int_char a = true.
Proof. intros H. unfold int_char. rewrite H, !orb_true_r. reflexivity. Qed.

Lemma int_lstrip_chars (s : string) :
  all_chars int_char (int_lstrip s) = true -> all_chars int_char s = true.
Proof.
  induction s as [|a s IH]; [reflexivity|].
  cbn [int_lstrip]. destruct (int_isspace a) eqn:Ea; [|intros H; exact H].
  intros H. cbn [all_chars]. rewrite (int_isspace_char _ Ea). exact (IH H).
Qed.

Lemma int_rstrip_chars (s : string) :
  all_chars int_char (int_rstrip s) = true -> all_chars int_char s = true.
Proof.
  induction s as [|a s IH]; [reflexivity|].
  cbn [int_rstrip]. destruct (int_rstrip s) as [|b r].
  - destruct (int_isspace a) eqn:Ea; cbn [all_chars].
    + intros _. rewrite (int_isspace_char _ Ea). exact (IH eq_refl).
    + rewrite andb_true_r. intros ->. exact (IH eq_refl).
  - cbn [all_chars]. intros H. apply andb_true_iff in H as [-> H].
    apply IH. cbn [all_chars]. exact H.
Qed.

(** A text that [int] accepts has only digits, underscores, signs and
    blanks. *)
Lemma int_literal_chars (s : string) (n : Z) :
  int_literal s = Some n -> all_chars int_char s = true.
Proof.
  unfold int_literal. intros H.
  apply int_lstrip_chars, int_rstrip_chars.
  destruct (int_rstrip (int_lstrip s)) as [|a r]; [discriminate|].
  assert (Hu : forall t m, int_unsigned t = Some m ->
                 all_chars int_char (String a r) = true ->
                 all_chars int_char (String a r) = true) by auto.
  destruct (ascii_dec a "+") as [->|Np].
  { simpl. apply (int_unsigned_chars _ _ H). }
  destruct (ascii_dec a "-") as [->|Nm].
  { simpl. destruct (int_unsigned r) eqn:E; [|discriminate].
    apply (int_unsigned_chars _ _ E). }
  assert (E : int_unsigned (String a r) = Some n).
  { revert H. destruct a as [[] [] [] [] [] [] [] []]; try (intros H'; exact H'); congruence. }
  apply (int_unsigned_chars _ _ E).
Qed.


(** [parse_timestamp] strips its argument itself. *)
Lemma parse_timestamp_strip (ts : string) (v : Z) :
  parse_timestamp ts = inr v -> parse_timestamp (strip ts) = inr v.
Proof.
  unfold parse_timestamp. rewrite strip_idemp.
  destruct (split ":" (strip ts)) as [|p0 [|p1 [|p2 [|p3 l]]]];
    try discriminate; intros H; exact H.
Qed.


Lemma parse_range_ordered (text : string) (r : range_info) :
  parse_range text = inr (Some r) -> start r < end_ r.
Proof.
  unfold parse_range. case_decide; [discriminate|].
  destruct (split "-" (strip text)) as [|p0 [|p1 [|p2 l]]]; try discriminate.
  destruct (parse_timestamp (strip p0)) as [|a]; [discriminate|].
  destruct (parse_timestamp (strip p1)) as [|b]; [discriminate|]. simpl.
  destruct (a >=? b) eqn:E; [discriminate|].
  intros [= <-]. simpl. lia.
Qed.

(** The loop only appends to the list it was given. *)
Lemma parse_ranges_loop_acc (l : list string) (acc : list range_info) :
  parse_ranges_loop l acc =
  try! r := parse_ranges_loop l [] in inr (acc ++ r).
Proof.
  revert acc. induction l as [|c l IH]; intros acc; simpl.
  - rewrite app_nil_r. reflexivity.
  - destruct (parse_range c) as [e|[info|]]; simpl; [reflexivity| |apply IH].
    rewrite (IH (acc ++ [info])), (IH [info]).
    destruct (parse_ranges_loop l []); simpl; [reflexivity|].
    rewrite <- app_assoc. reflexivity.
Qed.

Lemma parse_ranges_loop_app (l1 l2 : list string) (acc : list range_info) :
  parse_ranges_loop (l1 ++ l2) acc =
  try! r := parse_ranges_loop l1 acc in parse_ranges_loop l2 r.
Proof.
  revert acc. induction l1 as [|c l1 IH]; intros acc; simpl; [reflexivity|].
  destruct (parse_range c) as [e|[info|]]; simpl; [reflexivity|apply IH..].
Qed.

(** Parsing two texts joined by a comma: the ranges of the first, then
    the ranges of the second. *)
Lemma parse_timestamp_ranges_app (t1 t2 : string) :
  parse_timestamp_ranges (t1 +:+ "," +:+ t2) =
  try! r1 := parse_timestamp_ranges t1 in
  try! r2 := parse_timestamp_ranges t2 in
  inr (r1 ++ r2).
Proof.
  unfold parse_timestamp_ranges.
  change (t1 +:+ "," +:+ t2) with (t1 +:+ String "," t2).
  rewrite split_app, parse_ranges_loop_app.
  destruct (parse_ranges_loop (split "," t1) []) as [e|r1]; simpl; [reflexivity|].
  apply parse_ranges_loop_acc.
Qed.

Lemma parse_ranges_loop_ordered (l : list string) :
  forall acc ranges,
    Forall (fun r => start r < end_ r) acc ->
    parse_ranges_loop l acc = inr ranges ->
    Forall (fun r => start r < end_ r) ranges.
Proof.
  induction l as [|c l IH]; intros acc ranges Hacc; simpl.
  - intros [= <-]. exact Hacc.
  - destruct (parse_range c) as [e|[info|]] eqn:E; simpl; [discriminate| |].
    + apply IH. apply Forall_app. split; [exact Hacc|].
      constructor; [|constructor]. exact (parse_range_ordered _ _ E).
    + apply IH, Hacc.
Qed.



Lemma blank_candidates (t : string) :
  all_chars (fun c => eqb c "," || isspace c) t = true ->
  Forall (fun c => all_chars isspace c = true) (split "," t).
Proof.
  induction t as [|a t IH]; simpl.
  - intros _. repeat constructor.
  - intros H. apply andb_true_iff in H as [Ha Ht].
    specialize (IH Ht).
    destruct (eqb a ",") eqn:E.
    + constructor; [reflexivity|exact IH].
    + simpl in Ha. pose proof (split_not_nil "," t) as N.
      destruct (split "," t) as [|h l]; [congruence|].
      inversion IH as [|? ? Hh Hl]; subst.
      constructor; [|exact Hl]. simpl. rewrite Ha, Hh. reflexivity.
Qed.

Lemma parse_range_blank (c : string) :
  all_chars isspace c = true -> parse_range c = inr None.
Proof.
  intros H. unfold parse_range. rewrite (strip_blank _ H). reflexivity.
Qed.

Lemma parse_ranges_loop_blank (l : list string) (acc : list range_info) :
  Forall (fun c => all_chars isspace c = true) l ->
  parse_ranges_loop l acc = inr acc.
Proof.
  induction 1 as [|c l Hc Hl IH]; simpl; [reflexivity|].
  rewrite (parse_range_blank _ Hc). exact IH.
Qed.

End ParserFacts.

(** ** [int] reads back what [str] writes *)

Module IntFacts.
Import PyFacts.

Lemma ord_chr (n : Z) : 0 <= n < 256 -> ord (chr n) = n.
Proof.
  intros H. unfold ord, chr.
  rewrite N_ascii_embedding by lia. lia.
Qed.

Lemma isdigit_digit_char (d : Z) : 0 <= d < 10 -> isdigit (digit_char d) = true.
Proof.
  intros H. unfold isdigit, between, digit_char.
  rewrite ord_chr by lia. apply andb_true_iff. split; apply Z.leb_le; lia.
Qed.

Lemma ord_digit_char (d : Z) : 0 <= d < 10 -> ord (digit_char d) - 48 = d.
Proof. intros H. unfold digit_char. rewrite ord_chr by lia. lia. Qed.

Lemma isdigit_ord (a : ascii) : isdigit a = true -> 48 <= ord a <= 57.
Proof.
  unfold isdigit, between. intros H. apply andb_true_iff in H as [H1 H2].
  apply Z.leb_le in H1, H2. lia.
Qed.


Lemma isdigit_not_int_space (a : ascii) : isdigit a = true -> int_isspace a = false.
Proof.
  intros H. apply isdigit_ord in H. unfold int_isspace, between.
  repeat (apply orb_false_iff; split);
    try (apply andb_false_iff; right; apply Z.leb_gt; lia);
    apply Z.eqb_neq; lia.
Qed.


(** The digits [str] writes. *)
Lemma str_digits_all (fuel : nat) :
  forall n acc, all_chars isdigit acc = true ->
    all_chars isdigit (str_digits fuel n acc) = true.
Proof.
  induction fuel as [|fuel IH]; intros n acc Hacc; [exact Hacc|].
  cbn [str_digits].
  assert (Hd : all_chars isdigit (String (digit_char (n mod 10)) acc) = true).
  { cbn [all_chars]. rewrite isdigit_digit_char, Hacc; [reflexivity|].
    apply Z.mod_pos_bound. lia. }
  destruct (n <? 10); [exact Hd|]. apply IH, Hd.
Qed.

Lemma str_digits_not_empty (fuel : nat) :
  forall n acc, str_digits (S fuel) n acc <> "".
Proof.
  induction fuel as [|fuel IH]; intros n acc.
  - cbn [str_digits]. destruct (n <? 10); discriminate.
  - change (str_digits (S (S fuel)) n acc)
      with (if n <? 10 then String (digit_char (n mod 10)) acc
            else str_digits (S fuel) (n / 10) (String (digit_char (n mod 10)) acc)).
    destruct (n <? 10); [discriminate|apply IH].
Qed.

(** Reading the digits of [n] from value 0 continues from value [n]. *)
Lemma int_digits_str_digits (fuel : nat) :
  forall n acc, 0 <= n < 2 ^ Z.of_nat (S fuel) ->
    int_digits false 0 (str_digits (S fuel) n acc) = int_digits false n acc.
Proof.
  induction fuel as [|fuel IH]; intros n acc Hn.
  - change (2 ^ Z.of_nat 1) with 2 in Hn.
    cbn [str_digits]. replace (n <? 10) with true by (symmetry; apply Z.ltb_lt; lia).
    rewrite Z.mod_small by lia.
    cbn [int_digits]. rewrite isdigit_digit_char, ord_digit_char by lia.
    f_equal.
  - change (str_digits (S (S fuel)) n acc)
      with (if n <? 10 then String (digit_char (n mod 10)) acc
            else str_digits (S fuel) (n / 10) (String (digit_char (n mod 10)) acc)).
    destruct (n <? 10) eqn:E.
    + apply Z.ltb_lt in E. rewrite Z.mod_small by lia.
      cbn [int_digits]. rewrite isdigit_digit_char, ord_digit_char by lia.
      f_equal.
    + apply Z.ltb_ge in E. rewrite IH.
      * assert (Hm : 0 <= n mod 10 < 10) by (apply Z.mod_pos_bound; lia).
        cbn [int_digits]. rewrite isdigit_digit_char, ord_digit_char by lia.
        f_equal. pose proof (Z.div_mod n 10 ltac:(lia)). lia.
      * split; [apply Z.div_pos; lia|].
        apply Z.div_lt_upper_bound; [lia|].
        rewrite (Nat2Z.inj_succ (S fuel)), Z.pow_succ_r in Hn by lia. lia.
Qed.

Lemma int_rstrip_digits (s : string) :
  all_chars isdigit s = true -> int_rstrip s = s.
Proof.
  induction s as [|a s IH]; [reflexivity|].
  cbn [all_chars int_rstrip]. intros H. apply andb_true_iff in H as [Ha Hs].
  rewrite (IH Hs), (isdigit_not_int_space _ Ha). destruct s; reflexivity.
Qed.




Lemma str_nonneg_digits (n : Z) : all_chars isdigit (str_nonneg n) = true.
Proof. apply str_digits_all. reflexivity. Qed.

Lemma int_literal_digits (s : string) :
  all_chars isdigit s = true -> s <> "" ->
  int_literal s = int_digits false 0 s.
Proof.
  intros Hs Hne. unfold int_literal.
  destruct s as [|a s]; [congruence|].
  pose proof Hs as Hs'. cbn [all_chars] in Hs'.
  apply andb_true_iff in Hs' as [Ha _].
  cbn [int_lstrip]. rewrite (isdigit_not_int_space _ Ha).
  rewrite (int_rstrip_digits _ Hs).
  transitivity (int_unsigned (String a s)).
  - destruct a as [[] [] [] [] [] [] [] []]; try reflexivity;
      vm_compute in Ha; discriminate.
  - cbn [int_unsigned int_digits]. rewrite Ha. f_equal.
Qed.

(** [int(str(n)) == n] for [n >= 0]. *)
Lemma int_str (n : Z) : 0 <= n -> int (str n) = inr n.
Proof.
  intros Hn. unfold int, str.
  replace (n <? 0) with false by (symmetry; apply Z.ltb_ge; lia).
  rewrite int_literal_digits.
  - unfold str_nonneg. rewrite int_digits_str_digits; [reflexivity|].
    split; [lia|].
    destruct (Z.eq_dec n 0) as [->|Hz]; [reflexivity|].
    rewrite Nat2Z.inj_succ, Z2Nat.id by apply Z.log2_nonneg.
    apply Z.log2_spec. lia.
  - apply str_nonneg_digits.
  - apply str_digits_not_empty.
Qed.

End IntFacts.

(** ** The timestamp parser: clock values, reversed ranges, segments *)

Module ParserClaims.
Import PyFacts ParserFacts IntFacts.

Lemma split_two (sep : ascii) (a b : string) :
  contains sep a = false -> contains sep b = false ->
  split sep (a +:+ String sep b) = [a; b].
Proof.
  intros Ha Hb. rewrite split_app, (split_none _ _ Ha), (split_none _ _ Hb).
  reflexivity.
Qed.







(** C5. A range text a-b whose endpoints both parse and whose start is
    not below its end raises the ValueError that names the range text,
    alone or after other segments, so the bounds are never swapped; and
    every range [parse_timestamp_ranges] returns has start < end. *)
Theorem reversed_range_rejected :
  (forall a b va vb,
     contains "-" a = false -> contains "-" b = false ->
     contains "," a = false -> contains "," b = false ->
     parse_timestamp a = inr va -> parse_timestamp b = inr vb -> va >= vb ->
     parse_timestamp_ranges (a +:+ "-" +:+ b)
     = inl (ValueError ("Invalid range: start time must be before end time in "
                        +:+ strip (a +:+ "-" +:+ b))) /\
     forall before after ranges,
       parse_timestamp_ranges before = inr ranges ->
       parse_timestamp_ranges (before +:+ "," +:+ (a +:+ "-" +:+ b) +:+ "," +:+ after)
       = inl (ValueError ("Invalid range: start time must be before end time in "
                          +:+ strip (a +:+ "-" +:+ b)))) /\
  (forall text ranges,
     parse_timestamp_ranges text = inr ranges ->
     Forall (fun r => start r < end_ r) ranges).
Proof.
  split.
  - intros a b va vb Hda Hdb Hca Hcb Pa Pb Hge.
    assert (Alone : parse_timestamp_ranges (a +:+ "-" +:+ b)
       = inl (ValueError ("Invalid range: start time must be before end time in "
                          +:+ strip (a +:+ "-" +:+ b)))).
    { unfold parse_timestamp_ranges.
      change (a +:+ "-" +:+ b) with (a +:+ String "-" b).
      rewrite split_none.
      2:{ rewrite contains_app. cbn [contains]. rewrite Hca, Hcb. reflexivity. }
      cbn [parse_ranges_loop]. unfold parse_range.
      rewrite strip_app by reflexivity.
      rewrite decide_False by (destruct (lstrip a); discriminate).
      rewrite split_two by (try apply contains_lstrip; try apply contains_rstrip; assumption).
      rewrite strip_lstrip, strip_rstrip.
      rewrite (parse_timestamp_strip _ _ Pa), (parse_timestamp_strip _ _ Pb).
      cbn [bind_exn].
      replace (va >=? vb) with true by (symmetry; apply Z.geb_le; lia).
      reflexivity. }
    split; [exact Alone|].
    intros before after ranges Hbefore.
    rewrite parse_timestamp_ranges_app, Hbefore. cbn [bind_exn].
    rewrite parse_timestamp_ranges_app, Alone. reflexivity.
  - intros text ranges H.
    apply (parse_ranges_loop_ordered (split "," text) [] ranges);
      [constructor|exact H].
Qed.

Lemma reversed_range_rejected_witness :
  parse_timestamp_ranges "2:00-1:00"
  = inl (ValueError "Invalid range: start time must be before end time in 2:00-1:00")
  /\ Forall (fun r => start r < end_ r)
       [RangeInfo 5670 6043 "1:34:30" "1:40:43"; RangeInfo 2443 2700 "40:43" "45:00"].
Proof.
  destruct reversed_range_rejected as [Hrev Hord].
  split.
  - exact (proj1 (Hrev "2:00" "1:00" 120 60 eq_refl eq_refl eq_refl eq_refl
                    eq_refl eq_refl ltac:(lia))).
  - exact (Hord "1:34:30 - 1:40:43, 40:43 - 45:00" _ eq_refl).
Defined.

(** C6. A text made only of commas and blanks parses to the empty list
    (so does ",,"), a text without a comma gives what its one segment
    gives, parsing two texts joined by a comma gives the ranges of the
    first followed by the ranges of the second, and the sample text
    "1:34:30 - 1:40:43, 40:43 - 45:00" parses to (5670, 6043) then
    (2443, 2700). *)
Theorem parse_ranges_segments :
  (forall text,
     all_chars (fun c => eqb c "," || isspace c) text = true ->
     parse_timestamp_ranges text = inr []) /\
  parse_timestamp_ranges ",," = inr [] /\
  (forall text,
     contains "," text = false ->
     parse_timestamp_ranges text =
     try! r := parse_range text in
     inr (match r with Some info => [info] | None => [] end)) /\
  (forall t1 t2 r1 r2,
     parse_timestamp_ranges t1 = inr r1 -> parse_timestamp_ranges t2 = inr r2 ->
     parse_timestamp_ranges (t1 +:+ "," +:+ t2) = inr (r1 ++ r2)) /\
  parse_timestamp_ranges "1:34:30 - 1:40:43, 40:43 - 45:00"
  = inr [RangeInfo 5670 6043 "1:34:30" "1:40:43";
         RangeInfo 2443 2700 "40:43" "45:00"].
Proof.
  split; [|split; [reflexivity|split; [|split; [|reflexivity]]]].
  - intros text H. unfold parse_timestamp_ranges.
    apply parse_ranges_loop_blank, blank_candidates, H.
  - intros text H. unfold parse_timestamp_ranges.
    rewrite (split_none _ _ H). cbn [parse_ranges_loop].
    destruct (parse_range text) as [e|[info|]]; reflexivity.
  - intros t1 t2 r1 r2 H1 H2.
    rewrite parse_timestamp_ranges_app, H1, H2. reflexivity.
Qed.

Lemma parse_ranges_segments_witness :
  parse_timestamp_ranges " , ," = inr [] /\
  parse_timestamp_ranges ("3:00-4:00" +:+ "," +:+ " 1:00 - 2:00,")
  = inr ([RangeInfo 180 240 "3:00" "4:00"] ++ [RangeInfo 60 120 "1:00" "2:00"]).
Proof.
  destruct parse_ranges_segments as (Hblank & _ & _ & Happ & _).
  split.
  - exact (Hblank " , ," eq_refl).
  - exact (Happ "3:00-4:00" " 1:00 - 2:00," _ _ eq_refl eq_refl).
Defined.

End ParserClaims.

(** ** Facts about the split job *)

Module ServerFacts.

Section WithHost.

Context (host : Host).

Lemma bind_inv {A B : Type} (c : M A) (k : A -> M B) (w w' : World) (r : exn + B) :
  bind c k w = (r, w') ->
  (exists a w1, c w = (inr a, w1) /\ k a w1 = (r, w')) \/
  (exists e, c w = (inl e, w') /\ r = inl e).
Proof.
  unfold bind. destruct (c w) as [[e|a] w1].
  - intros [= <- <-]. right. eauto.
  - intros H. left. eauto.
Qed.

Lemma bind_ok {A B : Type} (c : M A) (k : A -> M B) (w w1 : World) (a : A) :
  c w = (inr a, w1) -> bind c k w = k a w1.
Proof. unfold bind. intros ->. reflexivity. Qed.

Lemma bind_raise {A B : Type} (c : M A) (k : A -> M B) (w w1 : World) (e : exn) :
  c w = (inl e, w1) -> bind c k w = (inl e, w1).
Proof. unfold bind. intros ->. reflexivity. Qed.

Lemma keeps_table_refl (w : World) : keeps_table w w.
Proof. split; reflexivity. Qed.

Lemma keeps_table_trans (w1 w2 w3 : World) :
  keeps_table w1 w2 -> keeps_table w2 w3 -> keeps_table w1 w3.
Proof. intros [A1 B1] [A2 B2]. split; congruence. Qed.

Lemma subprocess_run_effect (cmd : list string) (w w' : World) r :
  subprocess_run host cmd w = (r, w') ->
  keeps_table w w' /\ processes w' = processes w ++ [cmd]
  /\ mkdtemp_draws w' = mkdtemp_draws w.
Proof.
  unfold subprocess_run.
  destruct (run_process host (processes w) (fs w) cmd) as [e|[result f]];
    intros [= <- <-]; repeat split.
Qed.

(** *** The cutter and its fallback *)

(** The stream copy exits with 0: one invocation. *)
Lemma cut_copy_ok (j : job) (r : range_info) (out : string) (w : World) result f :
  run_process host (processes w) (fs w) (copy_cmd j r out) = inr (result, f) ->
  returncode result = 0 ->
  cut host j r out w
  = (inr tt, set_fs f (set_processes (processes w ++ [copy_cmd j r out]) w)).
Proof.
  intros Hrun Hcode. unfold cut, bind, subprocess_run.
  rewrite Hrun, Hcode. reflexivity.
Qed.


(** Whatever happens, the cutter runs once or twice and touches neither
    the table nor the random draws. *)
Lemma cut_effect (j : job) (r : range_info) (out : string) (w w' : World) x :
  cut host j r out w = (x, w') ->
  keeps_table w w' /\
  (processes w' = processes w ++ [copy_cmd j r out] \/
   processes w' = processes w ++ [copy_cmd j r out; reencode_cmd j r out]).
Proof.
  unfold cut. intros H.
  apply bind_inv in H as [(result & w1 & H1 & H)|(e & H1 & ->)].
  2:{ apply subprocess_run_effect in H1 as (K & P & _). split; [exact K|left; exact P]. }
  apply subprocess_run_effect in H1 as (K1 & P1 & _).
  destruct (negb (returncode result =? 0)).
  - apply bind_inv in H as [(result2 & w2 & H2 & H)|(e & H2 & ->)];
      apply subprocess_run_effect in H2 as (K2 & P2 & _).
    + assert (w' = w2) as ->.
      { destruct (negb (returncode result2 =? 0)); inversion H; reflexivity. }
      split; [eapply keeps_table_trans; eassumption|].
      right. rewrite P2, P1, <- app_assoc. reflexivity.
    + split; [eapply keeps_table_trans; eassumption|].
      right. rewrite P2, P1, <- app_assoc. reflexivity.
  - inversion H; subst. split; [exact K1|left; exact P1].
Qed.

(** *** One range *)

Lemma process_range_raise (j : job) (i : nat) (r : range_info) (w w' : World) e :
  process_range host j i r w = (inl e, w') ->
  cut host j r (clip_output_path j (output_filename (first_word j) i r)) w
  = (inl e, w').
Proof.
  unfold process_range. intros H.
  apply bind_inv in H as [([] & w1 & H1 & H)|(e' & H1 & [= <-])]; [|exact H1].
  exfalso. destruct (negb (save_to_path j)); [|discriminate].
  unfold bind, urandom_hex, store_clip, ret in H. discriminate.
Qed.

Lemma process_range_ok (j : job) (i : nat) (r : range_info) (w w' : World) c :
  process_range host j i r w = (inr c, w') ->
  let name := output_filename (first_word j) i r in
  let out := clip_output_path j name in
  exists w1,
    cut host j r out w = (inr tt, w1) /\ clip_filename c = name /\
    if save_to_path j then id c = None /\ w' = w1
    else
      let clip_id := "clip_" +:+ str (Z.of_nat i) +:+ "_"
                     +:+ hex (urandom host (urandom_draws w1)) in
      id c = Some clip_id /\
      w' = set_temp_clips
             (<[clip_id := ClipInfo out name (job_temp_dir j)]> (temp_clips w1))
             (set_urandom_draws (S (urandom_draws w1)) w1).
Proof.
  intros H. cbv zeta. unfold process_range in H.
  apply bind_inv in H as [([] & w1 & H1 & H)|(e' & H1 & [=])].
  exists w1. split; [exact H1|].
  destruct (save_to_path j); cbn [negb] in H.
  - inversion H; subst. repeat split.
  - unfold bind, urandom_hex, store_clip, ret in H.
    inversion H; subst. repeat split.
Qed.

(** With a requested directory a range registers nothing. *)
Lemma process_range_to_path (j : job) (i : nat) (r : range_info) (w w' : World) x :
  save_to_path j = true ->
  process_range host j i r w = (x, w') ->
  keeps_table w w' /\ forall c, x = inr c -> id c = None.
Proof.
  intros Hs H. destruct x as [e|c].
  - apply process_range_raise in H. apply cut_effect in H as [K _].
    split; [exact K|discriminate].
  - apply process_range_ok in H as (w1 & Hcut & _ & H). rewrite Hs in H.
    destruct H as [Hid ->]. apply cut_effect in Hcut as [K _].
    split; [exact K|]. intros c' [= <-]. exact Hid.
Qed.

Lemma registered_by_insert (j : job) (w : World) (c : clip) (k name : string) :
  registered_by j w c ->
  registered_by j
    (set_temp_clips
       (<[k := ClipInfo (path_join (job_temp_dir j) name) name (job_temp_dir j)]>
          (temp_clips w))
       (set_urandom_draws (S (urandom_draws w)) w)) c.
Proof.
  intros (cid & info & Hid & Hlook & Hdir & Hpath).
  destruct (decide (k = cid)) as [->|Hne].
  - exists cid, (ClipInfo (path_join (job_temp_dir j) name) name (job_temp_dir j)).
    cbn [temp_clips set_temp_clips]. rewrite lookup_insert_eq. repeat split; assumption.
  - exists cid, info. cbn [temp_clips set_temp_clips].
    rewrite lookup_insert_ne by exact Hne. repeat split; assumption.
Qed.

Lemma registered_by_same_table (j : job) (w w' : World) (c : clip) :
  temp_clips w' = temp_clips w -> registered_by j w c -> registered_by j w' c.
Proof.
  intros E (cid & info & Hid & Hlook & Hdir & Hpath).
  exists cid, info. rewrite E. repeat split; assumption.
Qed.

(** Without a requested directory a range that succeeds registers its
    clip, and the clips registered before stay registered. *)
Lemma process_range_scratch (j : job) (i : nat) (r : range_info) (w w' : World) c :
  save_to_path j = false ->
  process_range host j i r w = (inr c, w') ->
  registered_by j w' c /\
  forall c', registered_by j w c' -> registered_by j w' c'.
Proof.
  intros Hs H. apply process_range_ok in H as (w1 & Hcut & Hname & H).
  rewrite Hs in H. destruct H as [Hid ->].
  apply cut_effect in Hcut as [[Kt Ku] _].
  unfold clip_output_path. rewrite Hs. split.
  - eexists _, _. split; [exact Hid|].
    cbn [temp_clips set_temp_clips]. rewrite lookup_insert_eq.
    repeat split.
  - intros c' Hc'. apply registered_by_insert.
    apply (registered_by_same_table j w w1 c' Kt Hc').
Qed.

(** *** The loop *)

Lemma process_ranges_app (j : job) (l1 l2 : list range_info) :
  forall i acc w,
    process_ranges host j i (l1 ++ l2) acc w =
    match process_ranges host j i l1 acc w with
    | (inr acc', w1) => process_ranges host j (i + length l1) l2 acc' w1
    | (inl e, w1) => (inl e, w1)
    end.
Proof.
  induction l1 as [|r l1 IH]; intros i acc w.
  - cbn [app process_ranges length ret]. rewrite Nat.add_0_r. reflexivity.
  - cbn [app process_ranges length]. unfold bind.
    destruct (process_range host j i r w) as [[e|c] w1]; [reflexivity|].
    rewrite IH, Nat.add_succ_r. reflexivity.
Qed.

(** The clips of a loop that ends: those it started with, then one per
    range, named after the range and its number. *)
Lemma process_ranges_names (j : job) (ranges : list range_info) :
  forall i acc w clips w',
    process_ranges host j i ranges acc w = (inr clips, w') ->
    exists new,
      clips = acc ++ new /\ length new = length ranges /\
      forall k r, ranges !! k = Some r ->
        clip_filename <$> new !! k
        = Some (output_filename (first_word j) (i + k) r).
Proof.
  induction ranges as [|r ranges IH]; intros i acc w clips w' H.
  - inversion H; subst. exists []. rewrite app_nil_r.
    repeat split. intros k r Hk. rewrite lookup_nil in Hk. discriminate.
  - cbn [process_ranges] in H.
    apply bind_inv in H as [(c & w1 & H1 & H)|(e & _ & [=])].
    apply IH in H as (new & -> & Hlen & Hnames).
    apply process_range_ok in H1 as (_ & _ & Hname & _).
    exists (c :: new). rewrite <- app_assoc. repeat split.
    + cbn [length]. rewrite Hlen. reflexivity.
    + intros [|k] r' Hk.
      * inversion Hk; subst. cbn. rewrite Hname, Nat.add_0_r. reflexivity.
      * rewrite Nat.add_succ_r. exact (Hnames k r' Hk).
Qed.

Lemma process_ranges_to_path (j : job) (ranges : list range_info) :
  save_to_path j = true ->
  forall i acc w x w',
    process_ranges host j i ranges acc w = (x, w') ->
    keeps_table w w' /\
    forall clips, x = inr clips ->
      Forall (fun c => id c = None) acc -> Forall (fun c => id c = None) clips.
Proof.
  intros Hs. induction ranges as [|r ranges IH]; intros i acc w x w' H.
  - inversion H; subst. split; [apply keeps_table_refl|].
    intros clips [= <-] Hacc. exact Hacc.
  - cbn [process_ranges] in H.
    apply bind_inv in H as [(c & w1 & H1 & H)|(e & H1 & ->)].
    + apply (process_range_to_path _ _ _ _ _ _ Hs) in H1 as [K1 Hid].
      apply IH in H as [K Hall].
      split; [eapply keeps_table_trans; eassumption|].
      intros clips Hx Hacc. apply (Hall clips Hx).
      apply Forall_app. split; [exact Hacc|].
      constructor; [exact (Hid c eq_refl)|constructor].
    + apply (process_range_to_path _ _ _ _ _ _ Hs) in H1 as [K1 _].
      split; [exact K1|discriminate].
Qed.

Lemma process_ranges_scratch (j : job) (ranges : list range_info) :
  save_to_path j = false ->
  forall i acc w clips w',
    process_ranges host j i ranges acc w = (inr clips, w') ->
    Forall (registered_by j w) acc -> Forall (registered_by j w') clips.
Proof.
  intros Hs. induction ranges as [|r ranges IH]; intros i acc w clips w' H Hacc.
  - inversion H; subst. exact Hacc.
  - cbn [process_ranges] in H.
    apply bind_inv in H as [(c & w1 & H1 & H)|(e & _ & [=])].
    apply (process_range_scratch _ _ _ _ _ _ Hs) in H1 as [Hc Hkeep].
    apply (IH _ _ _ _ _ H).
    apply Forall_app. split.
    + eapply Forall_impl; [exact Hacc|]. exact Hkeep.
    + constructor; [exact Hc|constructor].
Qed.

(** Deleting a directory leaves nothing of it. *)
Lemma rmtree_gone (d : string) (w : World) :
  gone d (set_fs (rmtree_fs (fs w) d) w).
Proof.
  intros p Hin. cbn [fs set_fs]. unfold rmtree_fs.
  apply map_lookup_filter_None. right. intros x _. cbn. rewrite Hin. discriminate.
Qed.

(** *** Before the loop *)

Lemma probe_paths_effect (paths : list string) :
  forall w x w',
    probe_paths host paths w = (x, w') ->
    (exists cmd, x = inr cmd) /\ keeps_table w w' /\
    mkdtemp_draws w' = mkdtemp_draws w /\
    exists probes, processes w' = processes w ++ probes /\ Forall is_probe probes.
Proof.
  induction paths as [|path rest IH]; intros w x w' H.
  - inversion H; subst. split; [eauto|]. split; [apply keeps_table_refl|].
    split; [reflexivity|]. exists []. rewrite app_nil_r. split; constructor.
  - cbn [probe_paths] in H. destruct (exists_ path w).
    { inversion H; subst. split; [eauto|]. split; [apply keeps_table_refl|].
      split; [reflexivity|]. exists []. rewrite app_nil_r. split; constructor. }
    destruct (subprocess_run host [path; "-version"] w) as [r w1] eqn:E.
    apply subprocess_run_effect in E as (K1 & P1 & D1).
    assert (Here : (exists cmd : string, @inr exn string path = inr cmd) /\
                   keeps_table w w1 /\ mkdtemp_draws w1 = mkdtemp_draws w /\
                   exists probes, processes w1 = processes w ++ probes /\
                                  Forall is_probe probes).
    { split; [eauto|]. split; [exact K1|]. split; [exact D1|].
      exists [[path; "-version"]]. split; [exact P1|].
      constructor; [eexists; reflexivity|constructor]. }
    assert (Next : probe_paths host rest w1 = (x, w') ->
                   (exists cmd, x = inr cmd) /\ keeps_table w w' /\
                   mkdtemp_draws w' = mkdtemp_draws w /\
                   exists probes, processes w' = processes w ++ probes /\
                                  Forall is_probe probes).
    { intros H'. apply IH in H' as (Hx & K & D & probes & P & F).
      split; [exact Hx|]. split; [eapply keeps_table_trans; eassumption|].
      split; [congruence|].
      exists ([path; "-version"] :: probes). split.
      - rewrite P, P1, <- app_assoc. reflexivity.
      - constructor; [eexists; reflexivity|exact F]. }
    destruct r as [e|result]; [exact (Next H)|].
    destruct (returncode result =? 0); [|exact (Next H)].
    inversion H; subst. exact Here.
Qed.

Lemma get_ffmpeg_command_effect (w w' : World) x :
  get_ffmpeg_command host w = (x, w') ->
  (exists cmd, x = inr cmd) /\ keeps_table w w' /\
  mkdtemp_draws w' = mkdtemp_draws w /\
  exists probes, processes w' = processes w ++ probes /\ Forall is_probe probes.
Proof.
  unfold get_ffmpeg_command. case_decide as Hw; [apply probe_paths_effect|].
  intros H. inversion H; subst. split; [eauto|]. split; [apply keeps_table_refl|].
  split; [reflexivity|]. exists []. rewrite app_nil_r. split; constructor.
Qed.


Lemma resolve_output_path_effect (p : string) (w w' : World) x :
  resolve_output_path host p w = (x, w') ->
  keeps_table w w' /\ processes w' = processes w /\
  mkdtemp_draws w' = mkdtemp_draws w /\
  (fs w' = fs w \/
   (p <> "" /\ fs w !! expanduser host p = None /\
    fs w' = makedirs_fs (fs w) (expanduser host p))) /\
  exists o, x = inr o /\
    match o with
    | inl resp => exists msg, resp = ErrorJson msg 400
    | inr (out, s) =>
        s = negb (bool_decide (p = "")) /\ (p <> "" -> out = expanduser host p)
    end.
Proof.
  unfold resolve_output_path. case_decide as Hp.
  - intros H. inversion H; subst. repeat split; [left; reflexivity|].
    eexists. split; [reflexivity|]. split; [reflexivity|congruence].
  - destruct (exists_ (expanduser host p) w) eqn:Ex; cbn [negb].
    + destruct (isdir (expanduser host p) w); cbn [negb]; intros H;
        inversion H; subst; repeat split; try (left; reflexivity);
        eexists; (split; [reflexivity|]); cbv beta iota; eauto.
      split; [rewrite bool_decide_eq_false_2 by exact Hp; reflexivity|reflexivity].
    + unfold makedirs.
      destruct (blocked (fs w) (ancestors (expanduser host p) ++ [expanduser host p]));
        intros H; inversion H; subst.
      * repeat split; [left; reflexivity|].
        eexists. split; [reflexivity|]. cbv beta iota. eauto.
      * repeat split.
        -- right. split; [exact Hp|]. split; [|reflexivity].
           unfold exists_ in Ex. apply bool_decide_eq_false in Ex.
           destruct (fs w !! expanduser host p) eqn:E; [|reflexivity].
           exfalso. apply Ex. eauto.
        -- eexists. split; [reflexivity|].
           split; [rewrite bool_decide_eq_false_2 by exact Hp; reflexivity|reflexivity].
Qed.

Lemma mkdtemp_loop_effect (tries : nat) :
  forall w x w',
    mkdtemp_loop host tries w = (x, w') ->
    keeps_table w w' /\ processes w' = processes w.
Proof.
  induction tries as [|tries IH]; intros w x w' H.
  - inversion H; subst. repeat split.
  - cbn [mkdtemp_loop] in H. destruct (exists_ _ w).
    + apply IH in H as [[Kt Ku] P]. repeat split; assumption.
    + inversion H; subst. repeat split.
Qed.

(** What [prepare] hands to the loop. *)
Lemma prepare_job (req : Request) (w w0 : World) (j : job) (ranges : list range_info) :
  prepare host req w = (inr (inr (j, ranges)), w0) ->
  exists file,
    files_video req = Some file /\
    parse_timestamp_ranges (default "" (form_timestamps req)) = inr ranges /\
    first_word j = get_first_word (filename file) /\
    keeps_table w w0 /\
    let p := strip (default "" (form_outputPath req)) in
    save_to_path j = negb (bool_decide (p = "")) /\
    (p <> "" -> output_path j = expanduser host p).
Proof.
  unfold prepare. intros H.
  apply bind_inv in H as [(cmd & w1 & H1 & H)|(e & _ & [=])].
  apply get_ffmpeg_command_effect in H1 as (_ & K1 & _).
  destruct (files_video req) as [file|]; [|discriminate].
  case_decide as Hname; [discriminate|].
  destruct (negb (allowed_file (filename file))); [discriminate|].
  cbv zeta in H. case_decide as Hstamps; [discriminate|].
  apply bind_inv in H as [(o & w2 & H2 & H)|(e & _ & [=])].
  apply resolve_output_path_effect in H2 as (K2 & _ & _ & _ & o' & [= <-] & Ho).
  destruct o as [resp|[out s]]; [discriminate|]. destruct Ho as [Hs Hout].
  destruct (parse_timestamp_ranges (default "" (form_timestamps req)))
    as [[]|ranges'] eqn:Hparse; try discriminate.
  apply bind_inv in H as [(d & w3 & H3 & H)|(e & _ & [=])].
  apply mkdtemp_loop_effect in H3 as [K3 _].
  unfold bind, save, ret in H. inversion H; subst.
  exists file. repeat split; try assumption.
  - destruct K1 as [A1 _], K2 as [A2 _], K3 as [A3 _]. cbn [temp_clips set_fs].
    congruence.
  - destruct K1 as [_ A1], K2 as [_ A2], K3 as [_ A3]. cbn [urandom_draws set_fs].
    congruence.
Qed.

(** An answer [prepare] gives by itself is a refusal with status 400. *)
Lemma prepare_response (req : Request) (w w0 : World) (resp : response) :
  prepare host req w = (inr (inl resp), w0) ->
  exists msg, resp = ErrorJson msg 400.
Proof.
  unfold prepare. intros H.
  apply bind_inv in H as [(cmd & w1 & H1 & H)|(e & _ & [=])].
  destruct (files_video req) as [file|]; [|inversion H; eauto].
  case_decide as Hname; [inversion H; eauto|].
  destruct (negb (allowed_file (filename file))); [inversion H; eauto|].
  cbv zeta in H. case_decide as Hstamps; [inversion H; eauto|].
  apply bind_inv in H as [(o & w2 & H2 & H)|(e & _ & [=])].
  apply resolve_output_path_effect in H2 as (_ & _ & _ & _ & o' & [= <-] & Ho).
  destruct o as [resp'|[out s]]; [inversion H; subst; exact Ho|].
  destruct (parse_timestamp_ranges (default "" (form_timestamps req)))
    as [[]|ranges'] eqn:Hparse; try discriminate; [inversion H; eauto|].
  apply bind_inv in H as [(d & w3 & H3 & H)|(e & _ & [=])].
  unfold bind, save, ret in H. inversion H.
Qed.






(** *** The job and the route *)

Lemma run_job_ok (j : job) (ranges : list range_info) (w0 w1 : World) clips :
  process_ranges host j 1 ranges [] w0 = (inr clips, w1) ->
  run_job host j ranges w0 =
  if save_to_path j
  then (inr (SuccessJson clips (Some (output_path j))),
        set_fs (rmtree_fs (fs w1) (job_temp_dir j)) w1)
  else (inr (SuccessJson clips None), w1).
Proof.
  intros H. unfold run_job, try_except, bind. rewrite H.
  destruct (save_to_path j); reflexivity.
Qed.

Lemma run_job_raise (j : job) (ranges : list range_info) (w0 w1 : World) e :
  process_ranges host j 1 ranges [] w0 = (inl e, w1) ->
  run_job host j ranges w0
  = (inl e, set_fs (rmtree_fs (fs w1) (job_temp_dir j)) w1).
Proof. intros H. unfold run_job, try_except, bind. rewrite H. reflexivity. Qed.

Lemma split_video_job (req : Request) (w w0 : World) (j : job) ranges :
  prepare host req w = (inr (inr (j, ranges)), w0) ->
  split_video host req w =
  match run_job host j ranges w0 with
  | (inr resp, w') => (resp, w')
  | (inl e, w') => (ErrorJson (str_exn e) 500, w')
  end.
Proof. intros H. unfold split_video, bind. rewrite H. reflexivity. Qed.

(** A job that answers with success went through the whole loop. *)
Lemma split_video_success (req : Request) (w w' : World) clips saved :
  split_video host req w = (SuccessJson clips saved, w') ->
  exists j ranges w0 w1,
    prepare host req w = (inr (inr (j, ranges)), w0) /\
    process_ranges host j 1 ranges [] w0 = (inr clips, w1) /\
    if save_to_path j
    then saved = Some (output_path j) /\
         w' = set_fs (rmtree_fs (fs w1) (job_temp_dir j)) w1
    else saved = None /\ w' = w1.
Proof.
  intros H.
  destruct (prepare host req w) as [[e|[resp|[j ranges]]] w0] eqn:Hp.
  - unfold split_video, bind in H. rewrite Hp in H. discriminate.
  - apply prepare_response in Hp as Hr. destruct Hr as [msg ->].
    unfold split_video, bind, ret in H. rewrite Hp in H. discriminate.
  - rewrite (split_video_job _ _ _ _ _ Hp) in H.
    exists j, ranges, w0.
    destruct (process_ranges host j 1 ranges [] w0) as [[e|clips'] w1] eqn:Hl.
    + rewrite (run_job_raise _ _ _ _ _ Hl) in H. discriminate.
    + rewrite (run_job_ok _ _ _ _ _ Hl) in H. exists w1.
      destruct (save_to_path j); inversion H; subst; repeat split.
Qed.

(** *** The table *)




End WithHost.

End ServerFacts.

(** ** The split job, the clip names and the table *)

Module JobClaims.
Import PyFacts ParserFacts ServerFacts.



(** C2. The name of the clip cut for the range numbered i (from 1) is
    the first word of the uploaded file name, "-", i in decimal, "-[",
    the start label with ':' replaced by '_', " - ", the end label with
    ':' replaced by '_', and "].mp4"; the first word is taken as it is:
    every clip of a job that succeeds is named so, and token "Show",
    number 2, labels "1:00" and "2:30" give "Show-2-[1_00 - 2_30].mp4". *)
Theorem clip_display_name :
  (forall (host : Host) (req : Request) (w w' : World) clips saved file ranges,
     split_video host req w = (SuccessJson clips saved, w') ->
     files_video req = Some file ->
     parse_timestamp_ranges (default "" (form_timestamps req)) = inr ranges ->
     length clips = length ranges /\
     forall k r, ranges !! k = Some r ->
       clip_filename <$> clips !! k
       = Some (get_first_word (filename file) +:+ "-" +:+ str (Z.of_nat (S k))
               +:+ "-[" +:+ replace ":" "_" (start_str r) +:+ " - "
               +:+ replace ":" "_" (end_str r) +:+ "].mp4")) /\
  output_filename "Show" 2 (RangeInfo 60 150 "1:00" "2:30")
  = "Show-2-[1_00 - 2_30].mp4" /\
  output_filename "a:b" 1 (RangeInfo 60 150 "1:00" "2:30")
  = "a:b-1-[1_00 - 2_30].mp4".
Proof.
  split; [|split; reflexivity].
  intros host req w w' clips saved file ranges Hrun Hfile Hparse.
  apply split_video_success in Hrun as (j & ranges' & w0 & w1 & Hprep & Hloop & _).
  apply prepare_job in Hprep as (file' & Hfile' & Hparse' & Hword & _).
  assert (file' = file) as -> by congruence.
  assert (ranges' = ranges) as -> by congruence.
  apply process_ranges_names in Hloop as (new & -> & Hlen & Hnames).
  split; [exact Hlen|].
  intros k r Hk. cbn [app]. rewrite (Hnames k r Hk), Hword. reflexivity.
Qed.

Lemma clip_display_name_witness :
  clip_filename <$>
    [Clip None "Show-1-[1_00 - 2_30].mp4"; Clip None "Show-2-[3_00 - 4_00].mp4";
     Clip None "Show-3-[5_00 - 6_00].mp4"] !! 1%nat
  = Some ("Show" +:+ "-" +:+ str 2 +:+ "-[" +:+ replace ":" "_" "3:00" +:+ " - "
          +:+ replace ":" "_" "4:00" +:+ "].mp4").
Proof.
  refine (proj2 (proj1 clip_display_name good_host to_directory empty_world
                   (split_video good_host to_directory empty_world).2
                   _ (Some "/out/clips") {| filename := "Show.mp4"; stream := "video" |}
                   [range1; range2; range3] _ _ _) 1%nat range2 _);
    vm_compute; reflexivity.
Defined.

(** C3. On "_.mp4" the first word is the empty text, not "clip": the
    return for a delimiter that is present comes before the fallback. *)
Theorem get_first_word_empty :
  get_first_word "_.mp4" = "" /\ get_first_word " x.mp4" = "" /\
  get_first_word "My Clip.mp4" = "My" /\ get_first_word "my_clip.mp4" = "my" /\
  get_first_word "clip.mp4" = "clip" /\ get_first_word "" = "clip".
Proof. repeat split; reflexivity. Qed.




(** C8. A job with a requested output directory that succeeds returns
    the directory and one descriptor per range, each with a file name and
    without an id, leaves the table as it was, and ends with nothing left
    of its scratch directory. *)
Theorem output_directory_job (host : Host) (req : Request) (w w' : World)
    (p : string) (clips : list clip) (saved : option string) :
  form_outputPath req = Some p -> strip p <> "" ->
  split_video host req w = (SuccessJson clips saved, w') ->
  Forall (fun c => id c = None) clips /\
  temp_clips w' = temp_clips w /\
  saved = Some (expanduser host (strip p)) /\
  exists j ranges w0,
    prepare host req w = (inr (inr (j, ranges)), w0) /\
    length clips = length ranges /\
    gone (job_temp_dir j) w'.
Proof.
  intros Hout Hp Hrun.
  apply split_video_success in Hrun as (j & ranges & w0 & w1 & Hprep & Hloop & Hend).
  pose proof (prepare_job host _ _ _ _ _ Hprep)
    as (file & _ & _ & _ & [Kt _] & Hsave & Hpath).
  rewrite Hout in Hsave, Hpath. cbn [default] in Hsave, Hpath.
  rewrite bool_decide_eq_false_2 in Hsave by exact Hp. cbn [negb] in Hsave.
  rewrite Hsave in Hend. destruct Hend as [-> ->].
  pose proof (process_ranges_to_path host j ranges Hsave _ _ _ _ _ Hloop)
    as [[Kt1 _] Hids].
  pose proof (process_ranges_names host j ranges _ _ _ _ _ Hloop)
    as (new & Hnew & Hlen & _).
  split; [apply (Hids clips eq_refl); constructor|].
  split; [cbn [temp_clips set_fs]; congruence|].
  split; [rewrite (Hpath Hp); reflexivity|].
  exists j, ranges, w0. split; [exact Hprep|].
  split; [rewrite Hnew; exact Hlen|]. apply rmtree_gone.
Qed.

Lemma output_directory_job_witness :
  exists clips w',
    split_video good_host to_directory empty_world
    = (SuccessJson clips (Some "/out/clips"), w') /\
    length clips = 3%nat /\
    Forall (fun c => id c = None) clips /\
    temp_clips w' = ∅ /\
    fs w' !! "/tmp/tmp0" = None.
Proof.
  pose (w' := (split_video good_host to_directory empty_world).2).
  pose (clips := [Clip None "Show-1-[1_00 - 2_30].mp4";
                  Clip None "Show-2-[3_00 - 4_00].mp4";
                  Clip None "Show-3-[5_00 - 6_00].mp4"]).
  assert (Hrun : split_video good_host to_directory empty_world
                 = (SuccessJson clips (Some "/out/clips"), w')).
  { vm_compute. reflexivity. }
  destruct (output_directory_job good_host to_directory empty_world w' "/out/clips"
              clips (Some "/out/clips") eq_refl ltac:(vm_compute; discriminate) Hrun)
    as (Hids & Ht & _ & j & ranges & w0 & Hprep & _ & Hgone).
  exists clips, w'. split; [exact Hrun|]. split; [reflexivity|].
  split; [exact Hids|]. split; [exact Ht|].
  assert (Hj : job_temp_dir j = "/tmp/tmp0").
  { vm_compute in Hprep. inversion Hprep. reflexivity. }
  apply Hgone. rewrite Hj. vm_compute. reflexivity.
Defined.



(** C10. When a job without a requested directory fails on a range after
    the ranges before it succeeded, the request is answered with status
    500, the ids given to the earlier clips are still keys of the table,
    each with a record whose path lies in the job's scratch directory,
    the table is as the last success left it, and nothing is left of the
    scratch directory. *)
Theorem failed_job_keeps_records (host : Host) (req : Request)
    (w w0 w1 w2 : World) (j : job) (pre post : list range_info)
    (r : range_info) (clips : list clip) (e : exn) :
  prepare host req w = (inr (inr (j, pre ++ r :: post)), w0) ->
  strip (default "" (form_outputPath req)) = "" ->
  process_ranges host j 1 pre [] w0 = (inr clips, w1) ->
  process_range host j (S (length pre)) r w1 = (inl e, w2) ->
  exists w',
    split_video host req w = (ErrorJson (str_exn e) 500, w') /\
    length clips = length pre /\
    Forall (registered_by j w') clips /\
    temp_clips w' = temp_clips w1 /\
    gone (job_temp_dir j) w'.
Proof.
  intros Hprep Hblank Hpre Hfail.
  pose proof (prepare_job host _ _ _ _ _ Hprep) as (file & _ & _ & _ & _ & Hsave & _).
  rewrite Hblank, bool_decide_eq_true_2 in Hsave by reflexivity.
  cbn [negb] in Hsave.
  assert (Hloop : process_ranges host j 1 (pre ++ r :: post) [] w0 = (inl e, w2)).
  { rewrite process_ranges_app, Hpre. cbn [process_ranges].
    apply bind_raise. exact Hfail. }
  exists (set_fs (rmtree_fs (fs w2) (job_temp_dir j)) w2).
  split.
  { rewrite (split_video_job host _ _ _ _ _ Hprep), (run_job_raise host _ _ _ _ _ Hloop).
    reflexivity. }
  pose proof (process_ranges_names host j pre _ _ _ _ _ Hpre) as (new & Hnew & Hlen & _).
  pose proof (process_ranges_scratch host j pre Hsave _ _ _ _ _ Hpre ltac:(constructor))
    as Hreg.
  apply process_range_raise in Hfail. apply cut_effect in Hfail as [[Kt _] _].
  split; [rewrite Hnew; exact Hlen|].
  split.
  { eapply Forall_impl; [exact Hreg|]. intros c.
    apply registered_by_same_table. cbn [temp_clips set_fs]. exact Kt. }
  split; [cbn [temp_clips set_fs]; exact Kt|]. apply rmtree_gone.
Qed.

Lemma failed_job_keeps_records_witness :
  exists w',
    split_video failing_host to_scratch empty_world
    = (ErrorJson "FFmpeg failed: boom" 500, w') /\
    Forall (registered_by scratch_job w')
      [Clip (Some "clip_1_0031323334353637") "Show-1-[1_00 - 2_30].mp4"] /\
    fs w' !! "/tmp/tmp0/Show-1-[1_00 - 2_30].mp4" = None.
Proof.
  pose (w0 := (prepare failing_host to_scratch empty_world).2).
  pose (w1 := (process_ranges failing_host scratch_job 1 [range1] [] w0).2).
  pose (w2 := (process_range failing_host scratch_job 2 range2 w1).2).
  destruct (failed_job_keeps_records failing_host to_scratch empty_world w0 w1 w2
              scratch_job [range1] [range3] range2
              [Clip (Some "clip_1_0031323334353637") "Show-1-[1_00 - 2_30].mp4"]
              (Exception "FFmpeg failed: boom"))
    as (w' & Hrun & _ & Hreg & _ & Hgone).
  - vm_compute. reflexivity.
  - vm_compute. reflexivity.
  - vm_compute. reflexivity.
  - vm_compute. reflexivity.
  - exists w'. split; [exact Hrun|]. split; [exact Hreg|].
    apply Hgone. vm_compute. reflexivity.
Defined.

End JobClaims.

(** ** More on the timestamp parser *)

Module ParserMore.
Import PyFacts ParserFacts IntFacts.

Lemma all_chars_impl (P Q : ascii -> bool) (s : string) :
  (forall c, P c = true -> Q c = true) ->
  all_chars P s = true -> all_chars Q s = true.
Proof.
  intros HPQ. induction s as [|a s IH]; [reflexivity|].
  cbn [all_chars]. intros H. apply andb_true_iff in H as [Ha Hs].
  rewrite (HPQ _ Ha), (IH Hs). reflexivity.
Qed.

(** A character that is nowhere in a text fails the text's test never:
    the two views of "no [c] in [s]". *)
Lemma contains_false_all (c : ascii) (s : string) :
  contains c s = false <-> all_chars (fun a => negb (eqb a c)) s = true.
Proof.
  induction s as [|a s IH]; [split; reflexivity|].
  cbn [contains all_chars]. rewrite orb_false_iff, andb_true_iff, IH.
  rewrite negb_true_iff. reflexivity.
Qed.

Lemma all_chars_and (P Q : ascii -> bool) (s : string) :
  all_chars P s = true -> all_chars Q s = true ->
  all_chars (fun c => P c && Q c) s = true.
Proof.
  induction s as [|a s IH]; [reflexivity|].
  cbn [all_chars]. intros HP HQ.
  apply andb_true_iff in HP as [-> HP]. apply andb_true_iff in HQ as [-> HQ].
  rewrite (IH HP HQ). reflexivity.
Qed.

Lemma all_chars_lstrip (P : ascii -> bool) (s : string) :
  all_chars P s = true -> all_chars P (lstrip s) = true.
Proof.
  induction s as [|a s IH]; [reflexivity|].
  intros H. rewrite lstrip_cons. destruct (isspace a); [|exact H].
  cbn [all_chars] in H. apply andb_true_iff in H as [_ H]. exact (IH H).
Qed.

Lemma all_chars_rstrip (P : ascii -> bool) (s : string) :
  all_chars P s = true -> all_chars P (rstrip s) = true.
Proof.
  induction s as [|a s IH]; [reflexivity|].
  intros H. cbn [all_chars] in H. apply andb_true_iff in H as [Ha H].
  rewrite rstrip_cons. destruct (_ && _); [reflexivity|].
  cbn [all_chars]. rewrite Ha, (IH H). reflexivity.
Qed.

Lemma all_chars_strip (P : ascii -> bool) (s : string) :
  all_chars P s = true -> all_chars P (strip s) = true.
Proof. intros H. apply all_chars_rstrip, all_chars_lstrip, H. Qed.

(** The pieces of a split hold what the text holds, and no separator. *)
Lemma split_pieces (P : ascii -> bool) (sep : ascii) (s : string) :
  all_chars P s = true ->
  Forall (fun piece => all_chars P piece = true /\ contains sep piece = false)
         (split sep s).
Proof.
  induction s as [|a s IH]; intros H.
  - repeat constructor.
  - cbn [all_chars] in H. apply andb_true_iff in H as [Ha Hs].
    specialize (IH Hs). cbn [split]. destruct (eqb a sep) eqn:E.
    + constructor; [split; reflexivity|exact IH].
    + pose proof (split_not_nil sep s) as N.
      destruct (split sep s) as [|h l]; [congruence|].
      inversion IH as [|? ? [Hh Hc] Hl]; subst.
      constructor; [|exact Hl]. cbn [all_chars contains].
      rewrite Ha, Hh, E, Hc. split; reflexivity.
Qed.

(** A text whose pieces and separator pass a test passes it. *)
Lemma split_all_chars (P : ascii -> bool) (sep : ascii) (s : string) :
  P sep = true ->
  Forall (fun piece => all_chars P piece = true) (split sep s) ->
  all_chars P s = true.
Proof.
  intros Hsep. induction s as [|a s IH]; [reflexivity|].
  cbn [split all_chars]. destruct (eqb a sep) eqn:E.
  - apply eqb_eq in E as ->. intros H. inversion H; subst.
    rewrite Hsep. apply IH. assumption.
  - pose proof (split_not_nil sep s) as N.
    destruct (split sep s) as [|h l]; [congruence|].
    intros H. inversion H as [|? ? Hh Hl]; subst.
    cbn [all_chars] in Hh. apply andb_true_iff in Hh as [-> Hh].
    apply IH. constructor; assumption.
Qed.

Lemma contains_int_lstrip (c : ascii) (s : string) :
  contains c s = false -> contains c (int_lstrip s) = false.
Proof.
  induction s as [|a s IH]; [reflexivity|].
  intros H. cbn [int_lstrip]. destruct (int_isspace a); [|exact H].
  cbn [contains] in H. apply orb_false_iff in H as [_ H]. exact (IH H).
Qed.

Lemma contains_int_rstrip (c : ascii) (s : string) :
  contains c s = false -> contains c (int_rstrip s) = false.
Proof.
  induction s as [|a s IH]; [reflexivity|].
  intros H. cbn [contains] in H. apply orb_false_iff in H as [E H].
  specialize (IH H). cbn [int_rstrip].
  destruct (int_rstrip s) as [|b r].
  - destruct (int_isspace a); [reflexivity|]. cbn [contains]. rewrite E. reflexivity.
  - cbn [contains] in *. rewrite E. exact IH.
Qed.

Lemma int_digits_nonneg (s : string) :
  forall u acc n, 0 <= acc -> int_digits u acc s = Some n -> 0 <= n.
Proof.
  induction s as [|a s IH]; intros u acc n Hacc; cbn [int_digits].
  - destruct u; [discriminate|]. intros [= <-]. exact Hacc.
  - destruct (isdigit a) eqn:Ea.
    + apply IH. apply isdigit_ord in Ea. lia.
    + destruct (eqb a "_"); [|discriminate].
      destruct u; [discriminate|]. apply IH, Hacc.
Qed.

Lemma int_unsigned_nonneg (s : string) (n : Z) : int_unsigned s = Some n -> 0 <= n.
Proof.
  destruct s as [|a s]; [discriminate|]. cbn [int_unsigned].
  destruct (isdigit a) eqn:Ea; [|discriminate].
  apply int_digits_nonneg. apply isdigit_ord in Ea. lia.
Qed.

(** Without a minus sign [int] reads no negative number. *)
Lemma int_literal_nonneg (s : string) (n : Z) :
  contains "-" s = false -> int_literal s = Some n -> 0 <= n.
Proof.
  intros Hc. unfold int_literal.
  pose proof (contains_int_rstrip _ _ (contains_int_lstrip _ _ Hc)) as Hc'.
  destruct (int_rstrip (int_lstrip s)) as [|a r]; [discriminate|].
  destruct (ascii_dec a "+") as [->|Np]; [apply int_unsigned_nonneg|].
  destruct (ascii_dec a "-") as [->|Nm]; [discriminate Hc'|].
  intros H. apply (int_unsigned_nonneg (String a r)).
  revert H. destruct a as [[] [] [] [] [] [] [] []];
    try (intros H'; exact H'); congruence.
Qed.

Lemma int_nonneg (s : string) (n : Z) :
  contains "-" s = false -> int s = inr n -> 0 <= n.
Proof. intros Hc H. apply int_inr in H. exact (int_literal_nonneg _ _ Hc H). Qed.

Lemma contains_strip (c : ascii) (s : string) :
  contains c s = false -> contains c (strip s) = false.
Proof. intros H. apply contains_rstrip, contains_lstrip, H. Qed.

Lemma split_no_sep (c sep : ascii) (s : string) :
  contains c s = false -> Forall (fun piece => contains c piece = false) (split sep s).
Proof.
  intros H. apply contains_false_all in H.
  pose proof (split_pieces _ sep s H) as F.
  eapply Forall_impl; [exact F|]. intros piece [Hp _].
  apply contains_false_all, Hp.
Qed.

(** A clock text without a minus sign is worth no negative number. *)
Lemma parse_timestamp_nonneg (ts : string) (v : Z) :
  contains "-" ts = false -> parse_timestamp ts = inr v -> 0 <= v.
Proof.
  intros Hc. unfold parse_timestamp.
  pose proof (split_no_sep "-" ":" _ (contains_strip _ _ Hc)) as F.
  destruct (split ":" (strip ts)) as [|p0 [|p1 [|p2 [|p3 l]]]]; try discriminate.
  - inversion F as [|? ? H0 F1]; subst. inversion F1 as [|? ? H1 _]; subst.
    destruct (int p0) as [|m] eqn:E0; [discriminate|].
    destruct (int p1) as [|s] eqn:E1; [discriminate|].
    cbn [bind_exn]. intros [= <-].
    pose proof (int_nonneg _ _ H0 E0). pose proof (int_nonneg _ _ H1 E1). lia.
  - inversion F as [|? ? H0 F1]; subst. inversion F1 as [|? ? H1 F2]; subst.
    inversion F2 as [|? ? H2 _]; subst.
    destruct (int p0) as [|h] eqn:E0; [discriminate|].
    destruct (int p1) as [|m] eqn:E1; [discriminate|].
    destruct (int p2) as [|s] eqn:E2; [discriminate|].
    cbn [bind_exn]. intros [= <-].
    pose proof (int_nonneg _ _ H0 E0). pose proof (int_nonneg _ _ H1 E1).
    pose proof (int_nonneg _ _ H2 E2). lia.
Qed.

(** A clock text that parses is made of digits, underscores, signs,
    blanks and colons. *)
Lemma parse_timestamp_chars (ts : string) (v : Z) :
  parse_timestamp ts = inr v ->
  all_chars (fun c => int_char c || eqb c ":") (strip ts) = true.
Proof.
  unfold parse_timestamp. intros H.
  apply (split_all_chars _ ":"); [reflexivity|].
  assert (Tok : forall t n, int t = inr n ->
                  all_chars (fun c => int_char c || eqb c ":") t = true).
  { intros t n Ht. apply int_inr, int_literal_chars in Ht.
    eapply all_chars_impl; [|exact Ht]. intros c ->. reflexivity. }
  destruct (split ":" (strip ts)) as [|p0 [|p1 [|p2 [|p3 l]]]]; try discriminate.
  - destruct (int p0) as [|m] eqn:E0; [discriminate|].
    destruct (int p1) as [|s] eqn:E1; [discriminate|].
    repeat constructor; eapply Tok; eassumption.
  - destruct (int p0) as [|h] eqn:E0; [discriminate|].
    destruct (int p1) as [|m] eqn:E1; [discriminate|].
    destruct (int p2) as [|s] eqn:E2; [discriminate|].
    repeat constructor; eapply Tok; eassumption.
Qed.

(** What one segment gives: the two parts of its text around the dash. *)
Lemma parse_range_parts (text : string) (r : range_info) :
  parse_range text = inr (Some r) ->
  exists p0 p1,
    split "-" (strip text) = [p0; p1] /\
    start_str r = strip p0 /\ end_str r = strip p1 /\
    parse_timestamp (strip p0) = inr (start r) /\
    parse_timestamp (strip p1) = inr (end_ r).
Proof.
  unfold parse_range. case_decide as Hb; [discriminate|].
  destruct (split "-" (strip text)) as [|p0 [|p1 [|p2 l]]]; try discriminate.
  destruct (parse_timestamp (strip p0)) as [|a] eqn:E0; [discriminate|].
  destruct (parse_timestamp (strip p1)) as [|b] eqn:E1; [discriminate|].
  cbn [bind_exn]. destruct (a >=? b); [discriminate|].
  intros [= <-]. exists p0, p1. repeat split; assumption.
Qed.

(** What holds of every range a segment gives holds of every range the
    loop returns. *)
Lemma parse_ranges_loop_all (P : range_info -> Prop) (l : list string) :
  (forall c r, c ∈ l -> parse_range c = inr (Some r) -> P r) ->
  forall acc ranges,
    Forall P acc -> parse_ranges_loop l acc = inr ranges -> Forall P ranges.
Proof.
  induction l as [|c l IH]; intros HP acc ranges Hacc; cbn [parse_ranges_loop].
  - intros [= <-]. exact Hacc.
  - assert (HP' : forall c' r, c' ∈ l -> parse_range c' = inr (Some r) -> P r).
    { intros c' r Hin. apply HP. right. exact Hin. }
    destruct (parse_range c) as [e|[info|]] eqn:E; cbn [bind_exn]; [discriminate| |].
    + apply (IH HP'). apply Forall_app. split; [exact Hacc|].
      constructor; [|constructor]. apply (HP c info); [left|exact E].
    + apply (IH HP'), Hacc.
Qed.

Lemma parse_timestamp_ranges_all (P : range_info -> Prop) (text : string) ranges :
  (forall c r, parse_range c = inr (Some r) -> P r) ->
  parse_timestamp_ranges text = inr ranges -> Forall P ranges.
Proof.
  intros HP H.
  apply (parse_ranges_loop_all P (split "," text) (fun c r _ => HP c r) [] ranges);
    [constructor|exact H].
Qed.

Lemma split_dash_parts (text p0 p1 : string) :
  split "-" (strip text) = [p0; p1] ->
  contains "-" (strip p0) = false /\ contains "-" (strip p1) = false.
Proof.
  intros Hs.
  assert (A : all_chars (fun _ => true) (strip text) = true).
  { generalize (strip text). intros s. induction s as [|a s IH]; [reflexivity|exact IH]. }
  pose proof (split_pieces _ "-" _ A) as F. rewrite Hs in F.
  inversion F as [|? ? [_ H0] F1]; subst. inversion F1 as [|? ? [_ H1] _]; subst.
  split; apply contains_strip; assumption.
Qed.

End ParserMore.

(** ** The timestamp parser: signs, labels, failures *)

Module ParserExtras.
Import PyFacts ParserFacts IntFacts ParserMore.

(** X1. Every range [parse_timestamp_ranges] returns starts at a
    non-negative second and ends later, whatever the text, although
    [parse_timestamp] by itself reads a signed token: the dash of a sign
    is taken by the split of the range. *)
Theorem parsed_ranges_nonnegative (text : string) (ranges : list range_info) :
  parse_timestamp_ranges text = inr ranges ->
  Forall (fun r => 0 <= start r < end_ r) ranges.
Proof.
  apply parse_timestamp_ranges_all. intros c r H.
  pose proof (parse_range_ordered _ _ H) as Hlt.
  apply parse_range_parts in H as (p0 & p1 & Hs & _ & _ & H0 & _).
  apply split_dash_parts in Hs as [C0 _].
  pose proof (parse_timestamp_nonneg _ _ C0 H0). lia.
Qed.

Lemma parsed_ranges_nonnegative_witness :
  Forall (fun r => 0 <= start r < end_ r)
    [RangeInfo 65 130 "+1:05" "2:1_0"].
Proof.
  exact (parsed_ranges_nonnegative " +1:05 - 2:1_0 " _ eq_refl).
Defined.

(** X2. The labels of a returned range are the two sides of its segment
    with the blanks around them removed: each parses back to the value
    stored beside it, is unchanged by [strip], and is made only of
    digits, underscores, plus signs, blanks and colons, so it holds no
    dash, comma or path separator. *)
Theorem parsed_labels (text : string) (ranges : list range_info) :
  parse_timestamp_ranges text = inr ranges ->
  Forall (fun r =>
            parse_timestamp (start_str r) = inr (start r) /\
            parse_timestamp (end_str r) = inr (end_ r) /\
            strip (start_str r) = start_str r /\
            strip (end_str r) = end_str r /\
            all_chars label_char (start_str r) = true /\
            all_chars label_char (end_str r) = true) ranges.
Proof.
  apply parse_timestamp_ranges_all. intros c r H.
  apply parse_range_parts in H as (p0 & p1 & Hs & -> & -> & H0 & H1).
  apply split_dash_parts in Hs as [C0 C1].
  assert (Label : forall p v, contains "-" (strip p) = false ->
            parse_timestamp (strip p) = inr v ->
            all_chars label_char (strip p) = true).
  { intros p v C Hp. apply parse_timestamp_chars in Hp.
    rewrite strip_idemp in Hp. apply contains_false_all in C.
    exact (all_chars_and _ _ _ Hp C). }
  rewrite !strip_idemp.
  repeat split; try assumption; eapply Label; eassumption.
Qed.

Lemma parsed_labels_witness :
  Forall (fun r =>
            parse_timestamp (start_str r) = inr (start r) /\
            parse_timestamp (end_str r) = inr (end_ r) /\
            strip (start_str r) = start_str r /\
            strip (end_str r) = end_str r /\
            all_chars label_char (start_str r) = true /\
            all_chars label_char (end_str r) = true)
    [RangeInfo 65 130 "+1:05" "2:1_0"].
Proof.
  exact (parsed_labels " +1:05 - 2:1_0 " _ eq_refl).
Defined.

(** X3. The first segment that fails decides: when the text before a
    comma raises, the whole text raises the same error whatever follows,
    and when the text before parses and the text after raises, the whole
    raises that error and returns none of the ranges read so far. *)
Theorem first_failure_decides (t1 t2 : string) (e : exn) :
  (parse_timestamp_ranges t1 = inl e ->
   parse_timestamp_ranges (t1 +:+ "," +:+ t2) = inl e) /\
  (forall r1,
     parse_timestamp_ranges t1 = inr r1 ->
     parse_timestamp_ranges t2 = inl e ->
     parse_timestamp_ranges (t1 +:+ "," +:+ t2) = inl e).
Proof.
  split.
  - intros H. rewrite parse_timestamp_ranges_app, H. reflexivity.
  - intros r1 H1 H2. rewrite parse_timestamp_ranges_app, H1, H2. reflexivity.
Qed.

Lemma first_failure_decides_witness :
  parse_timestamp_ranges ("x" +:+ "," +:+ "1:00-2:00")
  = inl (ValueError "Invalid range format: x") /\
  parse_timestamp_ranges ("1:00-2:00" +:+ "," +:+ "5:00-4:00")
  = inl (ValueError "Invalid range: start time must be before end time in 5:00-4:00").
Proof.
  split.
  - exact (proj1 (first_failure_decides "x" "1:00-2:00" _) eq_refl).
  - exact (proj2 (first_failure_decides "1:00-2:00" "5:00-4:00" _) _ eq_refl eq_refl).
Defined.

(** X4. A segment needs exactly one dash: a segment that is not blank
    and has no dash, and a segment with two dashes or more (such as one
    whose start carries a minus sign), raise "Invalid range format: "
    followed by the segment without the blanks around it. *)
Theorem dash_count (a b c : string) :
  contains "," a = false -> contains "," b = false -> contains "," c = false ->
  (contains "-" a = false -> strip a <> "" ->
   parse_timestamp_ranges a
   = inl (ValueError ("Invalid range format: " +:+ strip a))) /\
  parse_timestamp_ranges (a +:+ "-" +:+ b +:+ "-" +:+ c)
  = inl (ValueError ("Invalid range format: "
                     +:+ strip (a +:+ "-" +:+ b +:+ "-" +:+ c))).
Proof.
  intros Ca Cb Cc. split.
  - intros Da Hne. unfold parse_timestamp_ranges.
    rewrite (split_none _ _ Ca). cbn [parse_ranges_loop]. unfold parse_range.
    rewrite decide_False by exact Hne.
    rewrite (split_none _ _ (contains_strip _ _ Da)). reflexivity.
  - unfold parse_timestamp_ranges.
    change (a +:+ "-" +:+ b +:+ "-" +:+ c)
      with (a +:+ String "-" (b +:+ String "-" c)).
    rewrite split_none.
    2:{ rewrite contains_app. cbn [contains]. rewrite contains_app. cbn [contains].
        rewrite Ca, Cb, Cc. reflexivity. }
    cbn [parse_ranges_loop]. unfold parse_range.
    rewrite strip_app by reflexivity.
    rewrite decide_False by (destruct (lstrip a); discriminate).
    rewrite rstrip_app by reflexivity.
    rewrite !split_app.
    assert (Pos : forall s, (1 <= length (split "-" s))%nat).
    { intros s. pose proof (split_not_nil "-" s).
      destruct (split "-" s); [congruence|cbn; lia]. }
    pose proof (Pos (lstrip a)). pose proof (Pos b). pose proof (Pos (rstrip c)).
    assert (Hlen : (3 <= length (split "-" (lstrip a) ++ split "-" b
                                 ++ split "-" (rstrip c)))%nat).
    { rewrite !length_app. lia. }
    destruct (split "-" (lstrip a) ++ split "-" b ++ split "-" (rstrip c))
      as [|q0 [|q1 [|q2 l]]]; cbn [length] in Hlen; try lia; reflexivity.
Qed.

Lemma dash_count_witness :
  parse_timestamp_ranges "1:00"
  = inl (ValueError ("Invalid range format: " +:+ strip "1:00")) /\
  parse_timestamp_ranges ("" +:+ "-" +:+ "1:00" +:+ "-" +:+ "2:00")
  = inl (ValueError ("Invalid range format: "
                     +:+ strip ("" +:+ "-" +:+ "1:00" +:+ "-" +:+ "2:00"))).
Proof.
  destruct (dash_count "1:00" "" "" eq_refl eq_refl eq_refl) as [H1 _].
  destruct (dash_count "" "1:00" "2:00" eq_refl eq_refl eq_refl) as [_ H2].
  split; [apply H1; [reflexivity|vm_compute; discriminate]|exact H2].
Defined.

End ParserExtras.

(** ** More on file names *)

Module NameMore.
Import PyFacts.

Lemma len_nonneg (s : string) : 0 <= len s.
Proof. induction s as [|a s IH]; cbn [len]; lia. Qed.

Lemma take_drop (n : nat) (s : string) : take n s +:+ drop n s = s.
Proof.
  revert s. induction n as [|n IH]; intros s; [reflexivity|].
  destruct s as [|a s]; [reflexivity|].
  cbn [take drop]. rewrite str_app_cons, IH. reflexivity.
Qed.

Lemma take_len_app (base rest : string) :
  take (Z.to_nat (len base)) (base +:+ rest) = base.
Proof.
  induction base as [|a base IH]; [destruct rest; reflexivity|].
  cbn [len]. pose proof (len_nonneg base).
  replace (Z.to_nat (1 + len base)) with (S (Z.to_nat (len base))) by lia.
  rewrite str_app_cons. cbn [take]. rewrite IH. reflexivity.
Qed.

Lemma drop_len_app (base rest : string) (c : ascii) :
  drop (Z.to_nat (len base + 1)) (base +:+ String c rest) = rest.
Proof.
  induction base as [|a base IH]; [reflexivity|].
  cbn [len]. pose proof (len_nonneg base).
  replace (Z.to_nat (1 + len base + 1)) with (S (Z.to_nat (len base + 1))) by lia.
  rewrite str_app_cons. cbn [drop]. exact IH.
Qed.

Lemma rfind_lower (c : ascii) (s : string) : -1 <= rfind c s.
Proof.
  induction s as [|a s IH]; cbn [rfind]; [lia|].
  destruct (0 <=? rfind c s) eqn:E; [apply Z.leb_le in E; lia|].
  destruct (eqb a c); lia.
Qed.

Lemma rfind_none (c : ascii) (s : string) : contains c s = false -> rfind c s = -1.
Proof.
  induction s as [|a s IH]; [reflexivity|].
  cbn [contains rfind]. intros H. apply orb_false_iff in H as [E C].
  rewrite (IH C), E. reflexivity.
Qed.

(** The last separator of a text that ends in a part without it. *)
Lemma rfind_app (c : ascii) (base ext : string) :
  contains c ext = false -> rfind c (base +:+ String c ext) = len base.
Proof.
  intros H. induction base as [|a base IH].
  - rewrite str_app_nil_l. cbn [rfind len]. rewrite (rfind_none _ _ H), eqb_refl.
    reflexivity.
  - rewrite str_app_cons. cbn [rfind len]. rewrite IH.
    pose proof (len_nonneg base).
    replace (0 <=? len base) with true by (symmetry; apply Z.leb_le; lia).
    reflexivity.
Qed.

Lemma rsplit1_app (c : ascii) (base ext : string) :
  contains c ext = false -> rsplit1 c (base +:+ String c ext) = [base; ext].
Proof.
  intros H. unfold rsplit1, slice_to, slice_from. rewrite (rfind_app _ _ _ H).
  pose proof (len_nonneg base).
  replace (len base <? 0) with false by (symmetry; apply Z.ltb_ge; lia).
  rewrite take_len_app, drop_len_app. reflexivity.
Qed.

(** A text that holds a character splits at its last occurrence. *)
Lemma last_occurrence (c : ascii) (s : string) :
  contains c s = true ->
  exists base ext, s = base +:+ String c ext /\ contains c ext = false.
Proof.
  induction s as [|a s IH]; [discriminate|].
  cbn [contains]. destruct (contains c s) eqn:C.
  - intros _. destruct (IH eq_refl) as (base & ext & -> & Hext).
    exists (String a base), ext. split; [reflexivity|exact Hext].
  - rewrite orb_false_r. intros E. apply eqb_eq in E as ->.
    exists "", s. split; [reflexivity|exact C].
Qed.

(** The first piece of a split is the start of the text and holds no
    separator; it is empty only when the text starts with the
    separator. *)
Lemma first_split_prefix (sep : ascii) (s : string) :
  exists rest, s = first (split sep s) +:+ rest.
Proof.
  induction s as [|a s [rest IH]]; [exists ""; reflexivity|].
  cbn [split]. destruct (eqb a sep).
  - exists (String a s). reflexivity.
  - pose proof (split_not_nil sep s) as N.
    destruct (split sep s) as [|h l]; [congruence|].
    exists rest. cbn [first hd] in *. rewrite str_app_cons, <- IH. reflexivity.
Qed.

Lemma first_split_no_sep (sep : ascii) (s : string) :
  contains sep (first (split sep s)) = false.
Proof.
  induction s as [|a s IH]; [reflexivity|].
  cbn [split]. destruct (eqb a sep) eqn:E; [reflexivity|].
  pose proof (split_not_nil sep s) as N.
  destruct (split sep s) as [|h l]; [congruence|].
  cbn [first hd contains] in *. rewrite E, IH. reflexivity.
Qed.

Lemma first_split_empty (sep : ascii) (s : string) :
  first (split sep s) = "" -> contains sep s = true ->
  exists rest, s = String sep rest.
Proof.
  destruct s as [|a s]; [discriminate|].
  cbn [split]. destruct (eqb a sep) eqn:E.
  - apply eqb_eq in E as ->. eauto.
  - pose proof (split_not_nil sep s) as N.
    destruct (split sep s) as [|h l]; [congruence|]. discriminate.
Qed.

Lemma contains_prefix (c : ascii) (w rest : string) :
  contains c (w +:+ rest) = false -> contains c w = false.
Proof. rewrite contains_app. intros H. apply orb_false_iff in H as [H _]. exact H. Qed.

(** [os.path.splitext]: root and extension make up the path again, and
    the root is empty for the empty path only. *)
Lemma splitext_scan_cases (p : string) (d : Z) (n : nat) (k : Z) :
  splitext_scan p d n k = (p, "") \/
  (n <> O /\ splitext_scan p d n k = (slice_to d p, slice_from d p)).
Proof.
  revert k. induction n as [|n IH]; intros k; [left; reflexivity|].
  cbn [splitext_scan]. case_decide as Hd.
  - destruct (IH (k + 1)) as [H|[_ H]]; [left; exact H|].
    right. split; [discriminate|exact H].
  - right. split; [discriminate|reflexivity].
Qed.

Lemma splitext_join (p : string) : (splitext p).1 +:+ (splitext p).2 = p.
Proof.
  unfold splitext. destruct (_ >? _); [|apply str_app_nil_r].
  destruct (splitext_scan_cases p (rfind "." p)
              (Z.to_nat (rfind "." p - (rfind "/" p + 1))) (rfind "/" p + 1))
    as [->|[_ ->]]; [apply str_app_nil_r|apply take_drop].
Qed.

Lemma splitext_root_empty (p : string) : (splitext p).1 = "" -> p = "".
Proof.
  unfold splitext. destruct (_ >? _); [|intros H; exact H].
  destruct (splitext_scan_cases p (rfind "." p)
              (Z.to_nat (rfind "." p - (rfind "/" p + 1))) (rfind "/" p + 1))
    as [->|[Hn ->]]; [intros H; exact H|].
  pose proof (rfind_lower "/" p). cbn [fst]. unfold slice_to.
  destruct (Z.to_nat (rfind "." p)) as [|m] eqn:E; [lia|].
  destruct p; [reflexivity|discriminate].
Qed.

(** The loop over the delimiters, on a name without a space. *)
Lemma first_word_delims_shape (delims : list ascii) (name : string) :
  contains " " name = false ->
  contains " " (first_word_delims delims name) = false /\
  (name = "" -> first_word_delims delims name = "clip") /\
  (name <> "" -> exists rest, name = first_word_delims delims name +:+ rest) /\
  (first_word_delims delims name = "" ->
   exists c rest, name = String c rest /\ c ∈ delims).
Proof.
  intros Hsp. induction delims as [|d delims IH]; cbn [first_word_delims].
  - case_decide as Hn.
    + subst. repeat split; try reflexivity; [congruence|discriminate].
    + repeat split; [exact Hsp|congruence| |congruence].
      intros _. exists "". symmetry. apply str_app_nil_r.
  - destruct (contains d name) eqn:Hd.
    + destruct (first_split_prefix d name) as [rest Hrest].
      repeat split.
      * apply (contains_prefix _ _ rest). rewrite <- Hrest. exact Hsp.
      * intros ->. discriminate.
      * intros _. exists rest. exact Hrest.
      * intros He. destruct (first_split_empty _ _ He Hd) as [r ->].
        exists d, r. split; [reflexivity|left].
    + destruct IH as (A & B & C & D). repeat split; try assumption.
      intros He. destruct (D He) as (c & r & -> & Hin).
      exists c, r. split; [reflexivity|right; exact Hin].
Qed.

End NameMore.

(** ** File names: the upload gate and the first word *)

Module NameExtras.
Import PyFacts NameMore.

(** X5. [allowed_file] looks only at what follows the last dot, without
    regard to case: a name without a dot is refused, a name that ends in
    a dot and an extension is accepted exactly when the lowercased
    extension is one of the ten allowed ones, whatever stands before the
    dot (nothing, blanks, path separators), and every accepted name has
    this form. *)
Theorem allowed_file_extension :
  (forall name, contains "." name = false -> allowed_file name = false) /\
  (forall base ext,
     contains "." ext = false ->
     allowed_file (base +:+ "." +:+ ext)
     = bool_decide (lower ext ∈ ALLOWED_EXTENSIONS)) /\
  (forall name,
     allowed_file name = true ->
     exists base ext,
       name = base +:+ "." +:+ ext /\ contains "." ext = false /\
       lower ext ∈ ALLOWED_EXTENSIONS).
Proof.
  assert (Form : forall base ext,
     contains "." ext = false ->
     allowed_file (base +:+ "." +:+ ext)
     = bool_decide (lower ext ∈ ALLOWED_EXTENSIONS)).
  { intros base ext H. unfold allowed_file.
    change (base +:+ "." +:+ ext) with (base +:+ String "." ext).
    rewrite (rsplit1_app _ _ _ H), contains_app. cbn [contains].
    rewrite eqb_refl, orb_true_r. reflexivity. }
  split; [|split; [exact Form|]].
  - intros name H. unfold allowed_file. rewrite H. reflexivity.
  - intros name H.
    assert (Hdot : contains "." name = true).
    { unfold allowed_file in H. apply andb_true_iff in H as [H _]. exact H. }
    destruct (last_occurrence _ _ Hdot) as (base & ext & -> & Hext).
    exists base, ext. split; [reflexivity|]. split; [exact Hext|].
    change (base +:+ String "." ext) with (base +:+ "." +:+ ext) in H.
    rewrite (Form _ _ Hext) in H. apply bool_decide_eq_true in H. exact H.
Qed.

Lemma allowed_file_extension_witness :
  allowed_file "notes" = false /\
  allowed_file ("a/b c" +:+ "." +:+ "MkV") = bool_decide (lower "MkV" ∈ ALLOWED_EXTENSIONS) /\
  exists base ext, ".mp4" = base +:+ "." +:+ ext /\ contains "." ext = false /\
                   lower ext ∈ ALLOWED_EXTENSIONS.
Proof.
  destruct allowed_file_extension as (Hno & Hform & Hinv).
  split; [exact (Hno "notes" eq_refl)|].
  split; [exact (Hform "a/b c" "MkV" eq_refl)|].
  apply Hinv. vm_compute. reflexivity.
Defined.

(** X6. The first word never holds a space, and for a file name that is
    not empty it is the start of that name (possibly the empty start);
    the fallback "clip" is what the empty file name gives. *)
Theorem first_word_is_prefix (filename : string) :
  contains " " (get_first_word filename) = false /\
  (filename = "" -> get_first_word filename = "clip") /\
  (filename <> "" -> exists rest, filename = get_first_word filename +:+ rest).
Proof.
  unfold get_first_word.
  pose proof (splitext_join filename) as Hjoin.
  pose proof (splitext_root_empty filename) as Hroot.
  set (name := (splitext filename).1) in *.
  destruct (contains " " name) eqn:Hsp.
  - split; [apply first_split_no_sep|]. split.
    + intros ->. discriminate.
    + intros _. destruct (first_split_prefix " " name) as [rest Hrest].
      exists (rest +:+ (splitext filename).2).
      rewrite <- str_app_assoc, <- Hrest. symmetry. exact Hjoin.
  - destruct (first_word_delims_shape ["_"; "-"; "."]%char name Hsp)
      as (A & B & C & _).
    split; [exact A|]. split.
    + intros ->. reflexivity.
    + intros Hne. destruct C as [rest Hrest]; [intros E; apply Hne, Hroot, E|].
      exists (rest +:+ (splitext filename).2).
      rewrite <- str_app_assoc, <- Hrest. symmetry. exact Hjoin.
Qed.

Lemma first_word_is_prefix_witness :
  exists rest, "My Clip.v2.mp4" = get_first_word "My Clip.v2.mp4" +:+ rest.
Proof.
  apply (proj2 (proj2 (first_word_is_prefix "My Clip.v2.mp4"))). discriminate.
Defined.

(** X7. The first word is empty only for a file name that starts with a
    space, an underscore, a dash or a dot; and it is empty for every name
    that starts with a space, and for every name without a space that
    starts with an underscore. *)
Theorem first_word_empty_cases :
  (forall filename,
     get_first_word filename = "" ->
     exists c rest,
       filename = String c rest /\ c ∈ [" "; "_"; "-"; "."]%char) /\
  (forall rest, get_first_word (String " " rest) = "") /\
  (forall rest,
     contains " " rest = false -> get_first_word (String "_" rest) = "").
Proof.
  assert (Start : forall c rest,
            exists r, (splitext (String c rest)).1 = String c r).
  { intros c rest. pose proof (splitext_join (String c rest)) as Hjoin.
    pose proof (splitext_root_empty (String c rest)) as Hroot.
    destruct (splitext (String c rest)).1 as [|a r]; [discriminate (Hroot eq_refl)|].
    rewrite str_app_cons in Hjoin. injection Hjoin as -> _. eauto. }
  split; [|split].
  - intros filename. unfold get_first_word.
    pose proof (splitext_join filename) as Hjoin.
    set (name := (splitext filename).1) in *.
    destruct (contains " " name) eqn:Hsp.
    + intros He. destruct (first_split_empty _ _ He Hsp) as [r Hr].
      rewrite Hr, str_app_cons in Hjoin.
      eexists _, _. split; [symmetry; exact Hjoin|left].
    + intros He.
      destruct (first_word_delims_shape ["_"; "-"; "."]%char name Hsp)
        as (_ & _ & _ & D).
      destruct (D He) as (c & r & Hr & Hin).
      rewrite Hr, str_app_cons in Hjoin.
      eexists _, _. split; [symmetry; exact Hjoin|right; exact Hin].
  - intros rest. unfold get_first_word.
    destruct (Start " "%char rest) as [r ->].
    cbn [contains]. rewrite eqb_refl. cbn [orb split]. rewrite eqb_refl. reflexivity.
  - intros rest Hsp. unfold get_first_word.
    pose proof (splitext_join (String "_" rest)) as Hjoin.
    destruct (Start "_"%char rest) as [r Hr]. rewrite Hr in *.
    rewrite str_app_cons in Hjoin. injection Hjoin as Hjoin.
    assert (Hr' : contains " " r = false).
    { apply (contains_prefix _ _ (splitext (String "_" rest)).2).
      rewrite Hjoin. exact Hsp. }
    cbn [contains]. rewrite Hr'. cbn [eqb orb first_word_delims contains].
    rewrite eqb_refl. cbn [orb split]. rewrite eqb_refl. reflexivity.
Qed.

Lemma first_word_empty_cases_witness :
  (exists c rest, "-a.mp4" = String c rest /\ c ∈ [" "; "_"; "-"; "."]%char) /\
  get_first_word (String "_" "intro.mov") = "".
Proof.
  destruct first_word_empty_cases as (Hstart & _ & Hus).
  split; [apply Hstart; reflexivity|apply Hus; reflexivity].
Defined.

End NameExtras.

(** ** More on the split job *)

Module ServerMore.
Import PyFacts ParserFacts IntFacts ServerFacts.

Section WithHost.

Context (host : Host).

(** The copy cannot be started: nothing else is tried. *)
Lemma cut_copy_raise (j : job) (r : range_info) (out : string) (w : World) e :
  run_process host (processes w) (fs w) (copy_cmd j r out) = inl e ->
  cut host j r out w
  = (inl e, set_processes (processes w ++ [copy_cmd j r out]) w).
Proof.
  intros Hrun. unfold cut, bind, subprocess_run. rewrite Hrun. reflexivity.
Qed.

(** One range runs the cutter once or twice and never drops a record. *)
Lemma process_range_effect (j : job) (i : nat) (r : range_info) (w w' : World) x :
  process_range host j i r w = (x, w') ->
  (forall k, is_Some (temp_clips w !! k) -> is_Some (temp_clips w' !! k)) /\
  exists cmds, processes w' = processes w ++ cmds /\
               (1 <= length cmds <= 2)%nat.
Proof.
  intros H.
  assert (Cut : forall y w1,
    cut host j r (clip_output_path j (output_filename (first_word j) i r)) w
    = (y, w1) ->
    temp_clips w1 = temp_clips w /\
    exists cmds, processes w1 = processes w ++ cmds /\ (1 <= length cmds <= 2)%nat).
  { intros y w1 Hc. apply cut_effect in Hc as [[Kt _] [P|P]].
    - split; [exact Kt|]. eexists. split; [exact P|cbn; lia].
    - split; [exact Kt|]. eexists. split; [exact P|cbn; lia]. }
  destruct x as [e|c].
  - apply process_range_raise in H. apply Cut in H as [Kt P].
    split; [|exact P]. intros k. rewrite Kt. intros Hk; exact Hk.
  - apply process_range_ok in H as (w1 & Hcut & _ & H).
    apply Cut in Hcut as [Kt P]. destruct (save_to_path j).
    + destruct H as [_ ->]. split; [|exact P].
      intros k. rewrite Kt. intros Hk; exact Hk.
    + destruct H as [_ ->]. split; [|exact P].
      intros k Hk. cbn [temp_clips set_temp_clips].
      apply lookup_insert_is_Some'. right. rewrite Kt. exact Hk.
Qed.

Lemma process_ranges_effect (j : job) (ranges : list range_info) :
  forall i acc w x w',
    process_ranges host j i ranges acc w = (x, w') ->
    (forall k, is_Some (temp_clips w !! k) -> is_Some (temp_clips w' !! k)) /\
    exists cmds,
      processes w' = processes w ++ cmds /\
      (length cmds <= 2 * length ranges)%nat /\
      (forall clips, x = inr clips -> (length ranges <= length cmds)%nat).
Proof.
  induction ranges as [|r ranges IH]; intros i acc w x w' H.
  - inversion H; subst. split; [intros k Hk; exact Hk|].
    exists []. rewrite app_nil_r. repeat split; cbn; lia.
  - cbn [process_ranges] in H.
    apply bind_inv in H as [(c & w1 & H1 & H)|(e & H1 & ->)].
    + apply process_range_effect in H1 as (M1 & cmds1 & P1 & L1).
      apply IH in H as (M & cmds & P & L & Lok).
      split; [intros k Hk; apply M, M1, Hk|].
      exists (cmds1 ++ cmds). split; [rewrite P, P1, <- app_assoc; reflexivity|].
      rewrite length_app. cbn [length]. split; [lia|].
      intros clips Hx. specialize (Lok clips Hx). lia.
    + apply process_range_effect in H1 as (M1 & cmds1 & P1 & L1).
      split; [exact M1|]. exists cmds1. split; [exact P1|].
      cbn [length]. split; [lia|discriminate].
Qed.

(** Without a requested directory, the clip of the range numbered [i]
    gets an id that starts with "clip_", [i] and an underscore. *)
Lemma process_ranges_ids (j : job) (ranges : list range_info) :
  save_to_path j = false ->
  forall i acc w clips w',
    process_ranges host j i ranges acc w = (inr clips, w') ->
    exists new,
      clips = acc ++ new /\
      forall k c, new !! k = Some c ->
        exists h, id c = Some ("clip_" +:+ str (Z.of_nat (i + k)) +:+ "_" +:+ h).
Proof.
  intros Hs. induction ranges as [|r ranges IH]; intros i acc w clips w' H.
  - inversion H; subst. exists []. rewrite app_nil_r. split; [reflexivity|].
    intros k c Hk. rewrite lookup_nil in Hk. discriminate.
  - cbn [process_ranges] in H.
    apply bind_inv in H as [(c & w1 & H1 & H)|(e & _ & [=])].
    apply IH in H as (new & -> & Hids).
    apply process_range_ok in H1 as (w2 & _ & _ & H1). rewrite Hs in H1.
    destruct H1 as [Hid _].
    exists (c :: new). rewrite <- app_assoc. split; [reflexivity|].
    intros [|k] c' Hk.
    + inversion Hk; subst. rewrite Nat.add_0_r. eauto.
    + rewrite Nat.add_succ_r. exact (Hids k c' Hk).
Qed.

(** The candidates are tried in order: the answer is one of them or the
    fallback, after at most one probe per candidate. *)
Lemma probe_paths_choice (paths : list string) :
  forall w x w',
    probe_paths host paths w = (x, w') ->
    exists cmd probes,
      x = inr cmd /\ (cmd ∈ paths \/ cmd = "ffmpeg.exe") /\
      processes w' = processes w ++ probes /\ Forall is_probe probes /\
      (length probes <= length paths)%nat /\ temp_clips w' = temp_clips w.
Proof.
  induction paths as [|path rest IH]; intros w x w' H.
  - inversion H; subst. exists "ffmpeg.exe", []. rewrite app_nil_r.
    repeat split; [right; reflexivity|constructor|cbn; lia].
  - cbn [probe_paths] in H. destruct (exists_ path w).
    { inversion H; subst. exists path, []. rewrite app_nil_r.
      repeat split; [left; left|constructor|cbn; lia]. }
    destruct (subprocess_run host [path; "-version"] w) as [r w1] eqn:E.
    apply subprocess_run_effect in E as ([Kt1 _] & P1 & _).
    assert (Next : probe_paths host rest w1 = (x, w') ->
      exists cmd probes,
        x = inr cmd /\ (cmd ∈ path :: rest \/ cmd = "ffmpeg.exe") /\
        processes w' = processes w ++ probes /\ Forall is_probe probes /\
        (length probes <= length (path :: rest))%nat /\
        temp_clips w' = temp_clips w).
    { intros H'. apply IH in H' as (cmd & probes & -> & Hin & P & F & L & Kt).
      exists cmd, ([path; "-version"] :: probes). split; [reflexivity|].
      split; [destruct Hin as [Hin|Hin]; [left; right; exact Hin|right; exact Hin]|].
      split; [rewrite P, P1, <- app_assoc; reflexivity|].
      split; [constructor; [eexists; reflexivity|exact F]|].
      split; [cbn [length]; lia|congruence]. }
    destruct r as [e|result]; [exact (Next H)|].
    destruct (returncode result =? 0); [|exact (Next H)].
    inversion H; subst. exists path, [[path; "-version"]].
    split; [reflexivity|]. split; [left; left|].
    split; [exact P1|]. split; [constructor; [eexists; reflexivity|constructor]|].
    split; [cbn [length]; lia|exact Kt1].
Qed.

(** How a job ends: with the clips of the whole loop, or with what the
    loop raised and the scratch directory deleted. *)
Lemma run_job_cases (j : job) (ranges : list range_info) (w0 w' : World) x :
  run_job host j ranges w0 = (x, w') ->
  (exists clips w1,
     process_ranges host j 1 ranges [] w0 = (inr clips, w1) /\
     x = inr (SuccessJson clips
                (if save_to_path j then Some (output_path j) else None)) /\
     w' = if save_to_path j
          then set_fs (rmtree_fs (fs w1) (job_temp_dir j)) w1 else w1) \/
  (exists e w1,
     process_ranges host j 1 ranges [] w0 = (inl e, w1) /\
     x = inl e /\ w' = set_fs (rmtree_fs (fs w1) (job_temp_dir j)) w1).
Proof.
  destruct (process_ranges host j 1 ranges [] w0) as [[e|clips] w1] eqn:Hl.
  - rewrite (run_job_raise host _ _ _ _ _ Hl). intros [= <- <-].
    right. eauto.
  - rewrite (run_job_ok host _ _ _ _ _ Hl). intros H. left. exists clips, w1.
    split; [reflexivity|]. destruct (save_to_path j); inversion H; split; reflexivity.
Qed.

Lemma mkdtemp_loop_creates (tries : nat) :
  forall w d w',
    mkdtemp_loop host tries w = (inr d, w') -> fs w' !! d = Some Dir.
Proof.
  induction tries as [|tries IH]; intros w d w' H; [discriminate|].
  cbn [mkdtemp_loop] in H. destruct (exists_ _ w).
  - apply IH in H. exact H.
  - inversion H; subst. cbn [fs set_fs set_mkdtemp_draws]. apply lookup_insert_eq.
Qed.

(** Whatever [prepare] ends with, it has left the table and the random
    draws alone and run only the probes of the lookup; when it ends with
    an answer of its own it has not asked for a temporary directory. *)
Lemma prepare_effect (req : Request) (w w0 : World) x :
  prepare host req w = (x, w0) ->
  keeps_table w w0 /\
  (exists probes, processes w0 = processes w ++ probes /\ Forall is_probe probes) /\
  (forall resp, x = inr (inl resp) -> mkdtemp_draws w0 = mkdtemp_draws w).
Proof.
  unfold prepare. intros H.
  apply bind_inv in H as [(cmd & w1 & H1 & H)|(e & H1 & ->)].
  2:{ apply get_ffmpeg_command_effect in H1 as ([cmd [=]] & _). }
  apply get_ffmpeg_command_effect in H1 as (_ & K1 & D1 & probes & P1 & F1).
  assert (Stop : forall y : exn + (response + job * list range_info),
            keeps_table w w1 /\
            (exists probes, processes w1 = processes w ++ probes /\
                            Forall is_probe probes) /\
            (forall resp, y = inr (inl resp) -> mkdtemp_draws w1 = mkdtemp_draws w)).
  { intros y. split; [exact K1|]. split; [eauto|]. intros _ _. exact D1. }
  destruct (files_video req) as [file|]; [|inversion H; subst; apply Stop].
  case_decide as Hname; [inversion H; subst; apply Stop|].
  destruct (negb (allowed_file (filename file))); [inversion H; subst; apply Stop|].
  cbv zeta in H. case_decide as Hstamps; [inversion H; subst; apply Stop|].
  clear Stop.
  apply bind_inv in H as [(o & w2 & H2 & H)|(e & H2 & ->)].
  2:{ apply resolve_output_path_effect in H2 as (_ & _ & _ & _ & o & [=] & _). }
  apply resolve_output_path_effect in H2 as (K2 & P2 & D2 & _ & _).
  assert (Stop : forall y : exn + (response + job * list range_info),
            keeps_table w w2 /\
            (exists probes, processes w2 = processes w ++ probes /\
                            Forall is_probe probes) /\
            (forall resp, y = inr (inl resp) -> mkdtemp_draws w2 = mkdtemp_draws w)).
  { intros y. split; [eapply keeps_table_trans; eassumption|].
    split; [exists probes; split; [congruence|exact F1]|]. intros _ _. congruence. }
  destruct o as [resp|[out s]]; [inversion H; subst; apply Stop|].
  destruct (parse_timestamp_ranges (default "" (form_timestamps req)))
    as [e|ranges] eqn:Hparse.
  { destruct e; inversion H; subst; apply Stop. }
  apply bind_inv in H as [(d & w3 & H3 & H)|(e & H3 & ->)];
    apply mkdtemp_loop_effect in H3 as [K3 P3].
  - unfold bind, save, ret in H. inversion H; subst.
    split; [|split; [|discriminate]].
    + destruct K1 as [A1 B1], K2 as [A2 B2], K3 as [A3 B3].
      split; cbn [temp_clips urandom_draws set_fs]; congruence.
    + exists probes. split; [cbn [processes set_fs]; congruence|exact F1].
  - split; [|split; [|discriminate]].
    + eapply keeps_table_trans; [|exact K3].
      eapply keeps_table_trans; eassumption.
    + exists probes. split; [congruence|exact F1].
Qed.

(** *** The sweep *)








End WithHost.

(** *** Names that differ *)

Lemma str_app_inv_head (s a b : string) : s +:+ a = s +:+ b -> a = b.
Proof.
  induction s as [|c s IH]; [intros H; exact H|].
  rewrite !str_app_cons. intros [= H]. exact (IH H).
Qed.

(** Two runs of digits, each followed by a character that is no digit,
    and then equal texts: the runs are equal. *)
Lemma digits_then_other (d1 d2 r1 r2 : string) (c1 c2 : ascii) :
  all_chars isdigit d1 = true -> all_chars isdigit d2 = true ->
  isdigit c1 = false -> isdigit c2 = false ->
  d1 +:+ String c1 r1 = d2 +:+ String c2 r2 -> d1 = d2.
Proof.
  intros H1 H2 N1 N2. revert d2 H2.
  induction d1 as [|a d1 IH]; intros d2 H2 E.
  - destruct d2 as [|b d2]; [reflexivity|].
    rewrite str_app_nil_l, str_app_cons in E. injection E as -> _.
    cbn [all_chars] in H2. rewrite N1 in H2. discriminate.
  - cbn [all_chars] in H1. apply andb_true_iff in H1 as [Ha H1].
    destruct d2 as [|b d2].
    + rewrite str_app_nil_l, str_app_cons in E. injection E as -> _.
      rewrite N2 in Ha. discriminate.
    + rewrite !str_app_cons in E. injection E as -> E.
      cbn [all_chars] in H2. apply andb_true_iff in H2 as [_ H2].
      f_equal. exact (IH H1 d2 H2 E).
Qed.

Lemma str_of_nat_inj (a b : nat) : str (Z.of_nat a) = str (Z.of_nat b) -> a = b.
Proof.
  intros H.
  pose proof (int_str (Z.of_nat a) ltac:(lia)) as Ha.
  pose proof (int_str (Z.of_nat b) ltac:(lia)) as Hb.
  rewrite H in Ha. rewrite Ha in Hb. injection Hb. lia.
Qed.

Lemma str_of_nat_digits (a : nat) : all_chars isdigit (str (Z.of_nat a)) = true.
Proof.
  unfold str. replace (Z.of_nat a <? 0) with false by (symmetry; apply Z.ltb_ge; lia).
  apply str_nonneg_digits.
Qed.

(** A number between two fixed texts, then a character that is no digit:
    equal results have equal numbers. *)
Lemma numbered_inj (pre : string) (a b : nat) (c1 c2 : ascii) (r1 r2 : string) :
  isdigit c1 = false -> isdigit c2 = false ->
  pre +:+ str (Z.of_nat a) +:+ String c1 r1 = pre +:+ str (Z.of_nat b) +:+ String c2 r2 ->
  a = b.
Proof.
  intros N1 N2 H. apply str_app_inv_head in H.
  apply str_of_nat_inj.
  exact (digits_then_other _ _ _ _ _ _ (str_of_nat_digits a) (str_of_nat_digits b)
           N1 N2 H).
Qed.

Lemma output_filename_inj (fw : string) (a b : nat) (r r' : range_info) :
  output_filename fw a r = output_filename fw b r' -> a = b.
Proof.
  unfold output_filename. intros H. apply str_app_inv_head in H.
  change ("-" +:+ str (Z.of_nat a) +:+ "-[" +:+ replace ":" "_" (start_str r)
          +:+ " - " +:+ replace ":" "_" (end_str r) +:+ "].mp4")
    with ("-" +:+ str (Z.of_nat a)
          +:+ String "-" ("[" +:+ replace ":" "_" (start_str r)
                          +:+ " - " +:+ replace ":" "_" (end_str r) +:+ "].mp4")) in H.
  change ("-" +:+ str (Z.of_nat b) +:+ "-[" +:+ replace ":" "_" (start_str r')
          +:+ " - " +:+ replace ":" "_" (end_str r') +:+ "].mp4")
    with ("-" +:+ str (Z.of_nat b)
          +:+ String "-" ("[" +:+ replace ":" "_" (start_str r')
                          +:+ " - " +:+ replace ":" "_" (end_str r') +:+ "].mp4")) in H.
  exact (numbered_inj "-" a b "-" "-" _ _ eq_refl eq_refl H).
Qed.

Lemma output_filename_head (fw : string) (i : nat) (r : range_info) :
  String.prefix "/" (output_filename fw i r) = String.prefix "/" (fw +:+ "-").
Proof.
  unfold output_filename. destruct fw as [|c fw]; [reflexivity|].
  rewrite !str_app_cons. cbn [String.prefix].
  destruct (ascii_dec "/" c); [|reflexivity].
  destruct (fw +:+ "-"); destruct (fw +:+ _); reflexivity.
Qed.

Lemma path_join_inj (d a b : string) :
  String.prefix "/" a = String.prefix "/" b ->
  path_join d a = path_join d b -> a = b.
Proof.
  unfold path_join. intros <-. destruct (String.prefix "/" a); [intros E; exact E|].
  case_decide as Hd; [intros E; exact E|].
  case_decide as Hs.
  - apply str_app_inv_head.
  - intros E. apply str_app_inv_head in E.
    change ("/" +:+ a) with (String "/" a) in E.
    change ("/" +:+ b) with (String "/" b) in E. congruence.
Qed.

End ServerMore.

(** ** The split job: refusals, failures, ids, files, the sweep *)

Module JobExtras.
Import PyFacts ParserFacts IntFacts ParserMore ServerFacts ServerMore.

(** X8. Every answer of [split_video] with status 400 (no file, a file
    name that is empty or not allowed, no timestamps, an output path that
    cannot be used, timestamps that do not parse) is given before a
    temporary directory is asked for and before any cut: the table and
    the random draws are as before and the only commands run are the
    probes of the ffmpeg lookup. *)
Theorem refusal_before_staging (host : Host) (req : Request) (w w' : World)
    (msg : string) :
  split_video host req w = (ErrorJson msg 400, w') ->
  temp_clips w' = temp_clips w /\
  urandom_draws w' = urandom_draws w /\
  mkdtemp_draws w' = mkdtemp_draws w /\
  exists probes, processes w' = processes w ++ probes /\ Forall is_probe probes.
Proof.
  intros H.
  destruct (prepare host req w) as [[e|[resp|[j ranges]]] w0] eqn:Hp.
  - unfold split_video in H. rewrite (bind_raise _ _ _ _ _ Hp) in H. discriminate.
  - unfold split_video in H. rewrite (bind_ok _ _ _ _ _ Hp) in H.
    cbn [ret] in H. injection H as -> ->.
    apply prepare_effect in Hp as ([Kt Ku] & P & D).
    repeat split; try assumption. exact (D _ eq_refl).
  - rewrite (split_video_job host _ _ _ _ _ Hp) in H.
    destruct (run_job host j ranges w0) as [x w1] eqn:Hr.
    apply run_job_cases in Hr as [(c & w2 & _ & -> & _)|(e & w2 & _ & -> & _)];
      discriminate.
Qed.

Lemma refusal_before_staging_witness :
  temp_clips (split_video good_host malformed empty_world).2 = temp_clips empty_world /\
  mkdtemp_draws (split_video good_host malformed empty_world).2
  = mkdtemp_draws empty_world.
Proof.
  destruct (refusal_before_staging good_host malformed empty_world
              (split_video good_host malformed empty_world).2
              "Invalid range format: bad") as (Ht & _ & Hd & _).
  - vm_compute. reflexivity.
  - split; [exact Ht|exact Hd].
Defined.

(** X9. When the stream copy of a range cannot be started
    ([subprocess.run] raises), the re-encoding is not tried: the request
    is answered with status 500 and the text of the exception after this
    one invocation, the records of the ranges before stay, and nothing
    is left of the scratch directory. *)
Theorem unstarted_cutter (host : Host) (req : Request) (w w0 w1 : World) (j : job)
    (pre post : list range_info) (r : range_info) (clips : list clip) (e : exn) :
  let out := clip_output_path j (output_filename (first_word j) (S (length pre)) r) in
  prepare host req w = (inr (inr (j, pre ++ r :: post)), w0) ->
  process_ranges host j 1 pre [] w0 = (inr clips, w1) ->
  run_process host (processes w1) (fs w1) (copy_cmd j r out) = inl e ->
  exists w',
    split_video host req w = (ErrorJson (str_exn e) 500, w') /\
    processes w' = processes w1 ++ [copy_cmd j r out] /\
    temp_clips w' = temp_clips w1 /\
    gone (job_temp_dir j) w'.
Proof.
  intros out Hprep Hpre Hrun.
  pose proof (cut_copy_raise host j r out w1 e Hrun) as Hcut.
  assert (Hloop : process_ranges host j 1 (pre ++ r :: post) [] w0
                  = (inl e, set_processes (processes w1 ++ [copy_cmd j r out]) w1)).
  { rewrite process_ranges_app, Hpre. cbn [process_ranges].
    apply bind_raise. unfold process_range. apply bind_raise. exact Hcut. }
  rewrite (split_video_job host _ _ _ _ _ Hprep), (run_job_raise host _ _ _ _ _ Hloop).
  eexists. split; [reflexivity|]. split; [reflexivity|]. split; [reflexivity|].
  apply rmtree_gone.
Qed.

Lemma unstarted_cutter_witness :
  exists w',
    split_video missing_host to_scratch empty_world
    = (ErrorJson "[Errno 2] No such file or directory: 'ffmpeg'" 500, w') /\
    length (processes w') = 1%nat /\ fs w' !! "/tmp/tmp0" = None.
Proof.
  pose (w0 := (prepare missing_host to_scratch empty_world).2).
  destruct (unstarted_cutter missing_host to_scratch empty_world w0 w0 scratch_job
              [] [range2; range3] range1 []
              (OSError "[Errno 2] No such file or directory: 'ffmpeg'"))
    as (w' & Hrun & Hp & _ & Hgone).
  - vm_compute. reflexivity.
  - vm_compute. reflexivity.
  - vm_compute. reflexivity.
  - exists w'. split; [exact Hrun|]. split; [rewrite Hp; vm_compute; reflexivity|].
    apply Hgone. vm_compute. reflexivity.
Defined.

(** X10. Once the upload is staged, an error answer of [split_video]
    has status 500, carries the text of what the loop raised, and comes
    after the scratch directory was deleted, with or without a requested
    output directory. *)
Theorem error_after_staging (host : Host) (req : Request) (w w0 w' : World)
    (j : job) (ranges : list range_info) (msg : string) (status : Z) :
  prepare host req w = (inr (inr (j, ranges)), w0) ->
  split_video host req w = (ErrorJson msg status, w') ->
  status = 500 /\ gone (job_temp_dir j) w' /\
  exists e w1,
    process_ranges host j 1 ranges [] w0 = (inl e, w1) /\ msg = str_exn e.
Proof.
  intros Hprep H. rewrite (split_video_job host _ _ _ _ _ Hprep) in H.
  destruct (run_job host j ranges w0) as [x w1] eqn:Hr.
  apply run_job_cases in Hr as [(c & w2 & _ & -> & _)|(e & w2 & Hl & -> & ->)];
    [discriminate|].
  injection H as <- <- <-.
  split; [reflexivity|]. split; [apply rmtree_gone|]. eauto.
Qed.

Lemma error_after_staging_witness :
  gone "/tmp/tmp0" (split_video failing_host to_scratch empty_world).2.
Proof.
  refine (proj1 (proj2 (error_after_staging failing_host to_scratch empty_world
            (prepare failing_host to_scratch empty_world).2
            (split_video failing_host to_scratch empty_world).2
            scratch_job [range1; range2; range3] "FFmpeg failed: boom" 500 _ _)));
    vm_compute; reflexivity.
Defined.

(** X11. A job without a requested directory that succeeds returns no
    saved path and one descriptor per range; every descriptor has an id
    under which the table holds a record of this job, and no two
    descriptors of the answer share an id. *)
Theorem scratch_job_ids (host : Host) (req : Request) (w w' : World)
    (clips : list clip) (saved : option string) :
  strip (default "" (form_outputPath req)) = "" ->
  split_video host req w = (SuccessJson clips saved, w') ->
  saved = None /\ NoDup (id <$> clips) /\
  exists j ranges w0,
    prepare host req w = (inr (inr (j, ranges)), w0) /\
    length clips = length ranges /\
    Forall (registered_by j w') clips.
Proof.
  intros Hblank Hrun.
  apply split_video_success in Hrun as (j & ranges & w0 & w1 & Hprep & Hloop & Hend).
  pose proof (prepare_job host _ _ _ _ _ Hprep) as (file & _ & _ & _ & _ & Hsave & _).
  rewrite Hblank, bool_decide_eq_true_2 in Hsave by reflexivity.
  cbn [negb] in Hsave. rewrite Hsave in Hend. destruct Hend as [-> ->].
  split; [reflexivity|].
  pose proof (process_ranges_ids host j ranges Hsave _ _ _ _ _ Hloop)
    as (new & Hnew & Hids).
  cbn [app] in Hnew. subst new.
  split.
  - apply NoDup_alt. intros a b x Ha Hb.
    rewrite list_lookup_fmap in Ha, Hb.
    destruct (clips !! a) as [ca|] eqn:Ea; [|discriminate].
    destruct (clips !! b) as [cb|] eqn:Eb; [|discriminate].
    destruct (Hids a ca Ea) as [ha Hca]. destruct (Hids b cb Eb) as [hb Hcb].
    cbn in Ha, Hb. rewrite Hca in Ha. rewrite Hcb in Hb.
    assert (Hsame : "clip_" +:+ str (Z.of_nat (1 + b)) +:+ "_" +:+ hb
                    = "clip_" +:+ str (Z.of_nat (1 + a)) +:+ "_" +:+ ha)
      by congruence.
    assert (Hn : (1 + b = 1 + a)%nat).
    { exact (numbered_inj "clip_" _ _ "_" "_" hb ha eq_refl eq_refl Hsame). }
    lia.
  - exists j, ranges, w0. split; [exact Hprep|].
    pose proof (process_ranges_names host j ranges _ _ _ _ _ Hloop)
      as (new & Hnew & Hlen & _).
    split; [rewrite Hnew; exact Hlen|].
    apply (process_ranges_scratch host j ranges Hsave _ _ _ _ _ Hloop).
    constructor.
Qed.

Lemma scratch_job_ids_witness :
  NoDup [Some "clip_1_0031323334353637"; Some "clip_2_0131323334353637";
         Some "clip_3_0231323334353637"].
Proof.
  refine (proj1 (proj2 (scratch_job_ids good_host to_scratch empty_world
            (split_video good_host to_scratch empty_world).2
            [Clip (Some "clip_1_0031323334353637") "Show-1-[1_00 - 2_30].mp4";
             Clip (Some "clip_2_0131323334353637") "Show-2-[3_00 - 4_00].mp4";
             Clip (Some "clip_3_0231323334353637") "Show-3-[5_00 - 6_00].mp4"]
            None _ _)));
    vm_compute; reflexivity.
Defined.

(** X12. Within one job two ranges with different numbers never get the
    same clip name or the same output file, even when their labels are
    equal. *)
Theorem distinct_output_files (j : job) (a b : nat) (r r' : range_info) :
  a <> b ->
  output_filename (first_word j) a r <> output_filename (first_word j) b r' /\
  clip_output_path j (output_filename (first_word j) a r)
  <> clip_output_path j (output_filename (first_word j) b r').
Proof.
  intros Hne. split.
  - intros H. apply Hne. exact (output_filename_inj _ _ _ _ _ H).
  - intros H. apply Hne. apply (output_filename_inj (first_word j) a b r r').
    unfold clip_output_path in H.
    destruct (save_to_path j);
      (eapply path_join_inj; [|exact H]);
      rewrite !output_filename_head; reflexivity.
Qed.

Lemma distinct_output_files_witness :
  clip_output_path scratch_job (output_filename (first_word scratch_job) 1 range1)
  <> clip_output_path scratch_job (output_filename (first_word scratch_job) 2 range1).
Proof.
  exact (proj2 (distinct_output_files scratch_job 1 2 range1 range1 ltac:(lia))).
Defined.

(** X13. A job that succeeds has run the cutter at least once and at
    most twice per range between staging and its answer. *)
Theorem invocation_count (host : Host) (req : Request) (w w' : World)
    (clips : list clip) (saved : option string) :
  split_video host req w = (SuccessJson clips saved, w') ->
  exists j ranges w0 cmds,
    prepare host req w = (inr (inr (j, ranges)), w0) /\
    processes w' = processes w0 ++ cmds /\
    (length ranges <= length cmds <= 2 * length ranges)%nat.
Proof.
  intros Hrun.
  apply split_video_success in Hrun as (j & ranges & w0 & w1 & Hprep & Hloop & Hend).
  pose proof (process_ranges_effect host j ranges _ _ _ _ _ Hloop)
    as (_ & cmds & P & L & Lok).
  exists j, ranges, w0, cmds. split; [exact Hprep|].
  split.
  - destruct (save_to_path j); destruct Hend as [_ ->]; exact P.
  - split; [exact (Lok clips eq_refl)|exact L].
Qed.

Lemma invocation_count_witness :
  exists j ranges w0 cmds,
    prepare good_host to_scratch empty_world = (inr (inr (j, ranges)), w0) /\
    processes (split_video good_host to_scratch empty_world).2
    = processes w0 ++ cmds /\
    (length ranges <= length cmds <= 2 * length ranges)%nat.
Proof.
  refine (invocation_count good_host to_scratch empty_world
            (split_video good_host to_scratch empty_world).2
            [Clip (Some "clip_1_0031323334353637") "Show-1-[1_00 - 2_30].mp4";
             Clip (Some "clip_2_0131323334353637") "Show-2-[3_00 - 4_00].mp4";
             Clip (Some "clip_3_0231323334353637") "Show-3-[5_00 - 6_00].mp4"]
            None _).
  vm_compute. reflexivity.
Defined.



(** X15. Timestamps that are not empty but hold only commas and blanks
    are accepted: without a requested directory the job is answered with
    success and an empty clip list, no cut is run and no record is
    stored, and the scratch directory made for the upload is still
    there. *)
Theorem blank_timestamps_accepted (host : Host) (req : Request) (w wp w2 : World)
    (file : FileStorage) (ts cmd d : string) :
  files_video req = Some file -> filename file <> "" ->
  allowed_file (filename file) = true ->
  form_timestamps req = Some ts -> ts <> "" ->
  all_chars (fun c => eqb c "," || isspace c) ts = true ->
  strip (default "" (form_outputPath req)) = "" ->
  get_ffmpeg_command host w = (inr cmd, wp) ->
  mkdtemp host wp = (inr d, w2) ->
  exists w',
    split_video host req w = (SuccessJson [] None, w') /\
    processes w' = processes wp /\
    temp_clips w' = temp_clips w /\
    is_Some (fs w' !! d).
Proof.
  intros Hfile Hname Hallowed Hts Hne Hblank Hout Hcmd Hmk.
  assert (Hparse : parse_timestamp_ranges ts = inr []).
  { apply parse_ranges_loop_blank, blank_candidates, Hblank. }
  pose proof (get_ffmpeg_command_effect host _ _ _ Hcmd) as (_ & [Kt _] & _).
  pose proof (mkdtemp_loop_effect host _ _ _ _ Hmk) as [[Kt2 _] P2].
  pose proof (mkdtemp_loop_creates host _ _ _ _ Hmk) as Hd.
  assert (Hprep : exists j w',
            prepare host req w = (inr (inr (j, [])), w') /\
            save_to_path j = false /\ processes w' = processes wp /\
            temp_clips w' = temp_clips w /\ is_Some (fs w' !! d)).
  { eexists _, _. split.
    - unfold prepare. rewrite (bind_ok _ _ _ _ _ Hcmd), Hfile.
      rewrite decide_False by exact Hname. rewrite Hallowed. cbn [negb].
      cbv zeta. rewrite Hts. cbn [default]. rewrite decide_False by exact Hne.
      rewrite Hout. unfold resolve_output_path.
      rewrite decide_True by reflexivity.
      rewrite (bind_ok _ _ wp wp (@inr response _ ("", false)) eq_refl).
      unfold Datatypes.id. rewrite Hparse, (bind_ok _ _ _ _ _ Hmk).
      unfold bind, save, ret. reflexivity.
    - cbn [save_to_path processes temp_clips fs set_fs].
      split; [reflexivity|]. split; [exact P2|]. split; [congruence|].
      apply lookup_insert_is_Some'. right. rewrite Hd. eauto. }
  destruct Hprep as (j & w' & Hprep & Hsave & Hp & Ht & Hfs).
  exists w'. split; [|repeat split; assumption].
  rewrite (split_video_job host _ _ _ _ _ Hprep).
  rewrite (run_job_ok host j [] w' w' [] eq_refl), Hsave. reflexivity.
Qed.

Lemma blank_timestamps_accepted_witness :
  exists w',
    split_video good_host blank_request empty_world = (SuccessJson [] None, w') /\
    processes w' = processes empty_world /\
    temp_clips w' = temp_clips empty_world /\
    is_Some (fs w' !! "/tmp/tmp0").
Proof.
  refine (blank_timestamps_accepted good_host blank_request empty_world empty_world
            (mkdtemp good_host empty_world).2
            {| filename := "Show.mp4"; stream := "video" |} " , ," "ffmpeg" "/tmp/tmp0"
            eq_refl _ _ eq_refl _ _ _ _ _);
    try (vm_compute; reflexivity); discriminate.
Defined.

(** X16. [split_video] never takes a record out of the table, whatever
    its answer: an id that is a key before the request is a key after
    it. *)
Theorem table_only_grows (host : Host) (req : Request) (w : World) (k : string) :
  is_Some (temp_clips w !! k) ->
  is_Some (temp_clips (split_video host req w).2 !! k).
Proof.
  intros Hk.
  destruct (prepare host req w) as [[e|[resp|[j ranges]]] w0] eqn:Hp;
    pose proof (prepare_effect host _ _ _ _ Hp) as ([Kt _] & _).
  - unfold split_video. rewrite (bind_raise _ _ _ _ _ Hp). cbn [snd].
    rewrite Kt. exact Hk.
  - unfold split_video. rewrite (bind_ok _ _ _ _ _ Hp). cbn [ret snd].
    rewrite Kt. exact Hk.
  - rewrite (split_video_job host _ _ _ _ _ Hp).
    destruct (run_job host j ranges w0) as [x w1] eqn:Hr.
    assert (Hw1 : is_Some (temp_clips w1 !! k)).
    { apply run_job_cases in Hr
        as [(c & w2 & Hl & _ & ->)|(e & w2 & Hl & _ & ->)];
        apply process_ranges_effect in Hl as [M _];
        try destruct (save_to_path j); cbn [temp_clips set_fs];
        apply M; rewrite Kt; exact Hk. }
    destruct x; exact Hw1.
Qed.

Lemma table_only_grows_witness :
  is_Some (temp_clips
             (split_video failing_host to_scratch
                (split_video good_host to_scratch empty_world).2).2
           !! "clip_1_0031323334353637").
Proof.
  apply table_only_grows. vm_compute. eexists. reflexivity.
Defined.

(** X17. The ffmpeg lookup never raises and answers with "ffmpeg" or one
    of its four candidates; it runs at most four commands, all of them
    [-version] probes, and changes no record.  Off Windows it answers
    "ffmpeg" and does nothing; on Windows a candidate that exists on disk
    is answered without being run. *)
Theorem ffmpeg_lookup (host : Host) (w : World) :
  (forall x w',
     get_ffmpeg_command host w = (x, w') ->
     exists cmd probes,
       x = inr cmd /\ cmd ∈ "ffmpeg" :: possible_paths host /\
       processes w' = processes w ++ probes /\ Forall is_probe probes /\
       (length probes <= 4)%nat /\ temp_clips w' = temp_clips w) /\
  (platform_system host <> "Windows" ->
   get_ffmpeg_command host w = (inr "ffmpeg", w)) /\
  (platform_system host = "Windows" -> exists_ "ffmpeg.exe" w = true ->
   get_ffmpeg_command host w = (inr "ffmpeg.exe", w)).
Proof.
  split; [|split].
  - intros x w' H. unfold get_ffmpeg_command in H. case_decide as Hw.
    + apply probe_paths_choice in H as (cmd & probes & -> & Hin & P & F & L & Kt).
      exists cmd, probes. split; [reflexivity|].
      split; [right; destruct Hin as [Hin| ->]; [exact Hin|left]|].
      repeat split; assumption.
    + inversion H; subst. exists "ffmpeg", []. rewrite app_nil_r.
      split; [reflexivity|]. split; [left|]. repeat split; [constructor|cbn; lia].
  - intros Hne. unfold get_ffmpeg_command. rewrite decide_False by exact Hne.
    reflexivity.
  - intros Hwin Hex. unfold get_ffmpeg_command. rewrite decide_True by exact Hwin.
    unfold possible_paths. cbn [probe_paths]. rewrite Hex. reflexivity.
Qed.

Lemma ffmpeg_lookup_witness :
  get_ffmpeg_command good_host empty_world = (inr "ffmpeg", empty_world) /\
  exists cmd probes,
    (get_ffmpeg_command windows_host empty_world).1 = inr cmd /\
    cmd ∈ "ffmpeg" :: possible_paths windows_host /\
    processes (get_ffmpeg_command windows_host empty_world).2
    = processes empty_world ++ probes /\
    (length probes <= 4)%nat.
Proof.
  split.
  - apply (proj1 (proj2 (ffmpeg_lookup good_host empty_world))). discriminate.
  - destruct (proj1 (ffmpeg_lookup windows_host empty_world)
                (get_ffmpeg_command windows_host empty_world).1
                (get_ffmpeg_command windows_host empty_world).2)
      as (cmd & probes & Hx & Hin & Hp & _ & Hl & _).
    + destruct (get_ffmpeg_command windows_host empty_world). reflexivity.
    + exists cmd, probes. repeat split; assumption.
Defined.



End JobExtras.

(** ** Where the clips are written *)

Module PathExtras.
Import PyFacts NameMore ServerFacts.

Lemma first_split_keeps (sep c : ascii) (r : string) :
  eqb c sep = false ->
  first (split sep (String c r)) = String c (first (split sep r)).
Proof. intros E. rewrite (split_cons_other _ _ _ E). reflexivity. Qed.

Lemma first_word_delims_keeps (delims : list ascii) (c : ascii) (r : string) :
  Forall (fun d => eqb c d = false) delims ->
  exists word, first_word_delims delims (String c r) = String c word.
Proof.
  induction 1 as [|d delims Hd _ IH]; cbn [first_word_delims].
  - rewrite decide_False by discriminate. eauto.
  - destruct (contains d (String c r)); [|exact IH].
    rewrite (first_split_keeps _ _ _ Hd). eauto.
Qed.

(** A file name that starts with a character other than the four
    delimiters has a first word that starts with that character. *)
Lemma get_first_word_keeps (c : ascii) (rest : string) :
  Forall (fun d => eqb c d = false) [" "; "_"; "-"; "."]%char ->
  exists word, get_first_word (String c rest) = String c word.
Proof.
  intros F. unfold get_first_word.
  pose proof (splitext_join (String c rest)) as Hjoin.
  pose proof (splitext_root_empty (String c rest)) as Hroot.
  destruct (splitext (String c rest)).1 as [|a r]; [discriminate (Hroot eq_refl)|].
  rewrite str_app_cons in Hjoin. injection Hjoin as -> _.
  inversion F as [|? ? Hsp F']; subst.
  destruct (contains " " (String c r)).
  - rewrite (first_split_keeps _ _ _ Hsp). eauto.
  - apply first_word_delims_keeps. exact F'.
Qed.

(** X19. The directory of a clip is not enforced: when the uploaded file
    name starts with a slash, so does the first word, and every clip of
    the job is written at the absolute path made of the first word, the
    number and the labels, whatever the scratch directory and the
    requested output directory are. *)
Theorem absolute_name_escapes (host : Host) (req : Request) (w w0 : World)
    (j : job) (ranges : list range_info) (file : FileStorage) (rest : string) :
  prepare host req w = (inr (inr (j, ranges)), w0) ->
  files_video req = Some file ->
  filename file = String "/" rest ->
  forall i r,
    clip_output_path j (output_filename (first_word j) i r)
    = output_filename (first_word j) i r /\
    String.prefix "/" (output_filename (first_word j) i r) = true.
Proof.
  intros Hprep Hfile Hname i r.
  apply prepare_job in Hprep as (file' & Hfile' & _ & Hword & _).
  assert (file' = file) as -> by congruence.
  rewrite Hname in Hword.
  destruct (get_first_word_keeps "/" rest) as [word Hw]; [repeat constructor|].
  rewrite Hw in Hword.
  assert (Hhead : String.prefix "/" (output_filename (first_word j) i r) = true).
  { rewrite Hword. unfold output_filename. rewrite str_app_cons.
    cbn [String.prefix]. destruct (ascii_dec "/" "/") as [_|N]; [|congruence].
    destruct (word +:+ _); reflexivity. }
  split; [|exact Hhead].
  unfold clip_output_path, path_join. rewrite Hhead.
  destruct (save_to_path j); reflexivity.
Qed.

Lemma absolute_name_escapes_witness :
  clip_output_path
    {| ffmpeg_cmd := "ffmpeg"; input_path := "/tmp/tmp0/_srv_x.mp4";
       output_path := "/out/clips"; save_to_path := true;
       job_temp_dir := "/tmp/tmp0"; first_word := "/srv/x" |}
    (output_filename "/srv/x" 1 range1)
  = output_filename "/srv/x" 1 range1.
Proof.
  refine (proj1 (absolute_name_escapes strict_host absolute_name empty_world
            (prepare strict_host absolute_name empty_world).2
            {| ffmpeg_cmd := "ffmpeg"; input_path := "/tmp/tmp0/_srv_x.mp4";
               output_path := "/out/clips"; save_to_path := true;
               job_temp_dir := "/tmp/tmp0"; first_word := "/srv/x" |}
            [range1; range2; range3]
            {| filename := "/srv/x.mp4"; stream := "video" |} "srv/x.mp4"
            _ eq_refl eq_refl 1%nat range1)).
  vm_compute. reflexivity.
Defined.

End PathExtras.
